(** * LinkedIn job scraper: field extraction and aggregation

    A shallow embedding of the extraction and aggregation code of
    [job_page_scraper.py] and [linkedin_job_reporter_ui.py].

    Modelling conventions.
    - A Python [str] is a [string]: a sequence of characters, each a code
      point below 256 (Latin-1).  [str.strip], [str.split] and [str.lower]
      follow CPython on that range.
    - The browser session is read through its answers to selector probes.
      A probe either delivers an element, times out, or raises; reading an
      element's text or attribute either delivers a value or raises.  The
      rendered page is taken as it stands when extraction starts;
      navigation, the wait for the details pane and the scripts are calls
      of the session, each of which may raise.
    - A Python [dict] whose insertion order is observable ([Counter], the
      result of [most_common]) is an association list in insertion order.
    - The wall clock ([datetime.now()]) is an explicit argument. *)

From Stdlib Require Import String Ascii List Bool Arith NArith ZArith Lia.
From Stdlib Require Import Sorting.Sorted Sorting.Permutation.
Import ListNotations.

Local Open Scope list_scope.
Local Open Scope string_scope.

(* ================================================================= *)
(** ** Python string operations *)

Module PyStr.

(** [c.isspace()] for a code point below 256. *)
Definition is_space (c : ascii) : bool :=
  let n := N_of_ascii c in
  (((9 <=? n) && (n <=? 13)) || ((28 <=? n) && (n <=? 32))
   || (n =? 133) || (n =? 160))%N.

(** [c.lower()] for a code point below 256. *)
Definition lower_char (c : ascii) : ascii :=
  let n := N_of_ascii c in
  if (((65 <=? n) && (n <=? 90))
      || ((192 <=? n) && (n <=? 222) && negb (n =? 215)))%N
  then ascii_of_N (n + 32) else c.

Fixpoint lower (s : string) : string :=
  match s with
  | EmptyString => EmptyString
  | String c s' => String (lower_char c) (lower s')
  end.

Fixpoint lstrip (s : string) : string :=
  match s with
  | EmptyString => EmptyString
  | String c s' => if is_space c then lstrip s' else s
  end.

Fixpoint rstrip (s : string) : string :=
  match s with
  | EmptyString => EmptyString
  | String c s' =>
      match rstrip s' with
      | EmptyString => if is_space c then EmptyString else String c EmptyString
      | r => String c r
      end
  end.

(** [s.strip()] *)
Definition strip (s : string) : string := rstrip (lstrip s).

(** [s.split()]: the maximal runs of non-whitespace characters. *)
Fixpoint split (s : string) : list string :=
  match s with
  | EmptyString => []
  | String c s' =>
      if is_space c then split s'
      else match s' with
           | EmptyString => [String c EmptyString]
           | String c' _ =>
               if is_space c' then String c EmptyString :: split s'
               else match split s' with
                    | w :: ws => String c w :: ws
                    | [] => [String c EmptyString]
                    end
           end
  end.

(** [sep.join(parts)] *)
Fixpoint join (sep : string) (parts : list string) : string :=
  match parts with
  | [] => EmptyString
  | [p] => p
  | p :: ps => p ++ sep ++ join sep ps
  end.

(** [s.startswith(p)] *)
Fixpoint starts_with (p s : string) : bool :=
  match p with
  | EmptyString => true
  | String a p' =>
      match s with
      | EmptyString => false
      | String b s' => Ascii.eqb a b && starts_with p' s'
      end
  end.

(** [needle in hay] *)
Fixpoint str_in (needle hay : string) : bool :=
  starts_with needle hay ||
  match hay with
  | EmptyString => false
  | String _ hay' => str_in needle hay'
  end.

(** [any(w in s for w in words)] *)
Definition any_in (words : list string) (s : string) : bool :=
  existsb (fun w => str_in w s) words.

(** [all(c.isspace() for c in s)] *)
Fixpoint all_space (s : string) : bool :=
  match s with
  | EmptyString => true
  | String c s' => is_space c && all_space s'
  end.

(** [c.isalnum()] for a code point below 256. *)
Definition is_alnum (c : ascii) : bool :=
  let n := N_of_ascii c in
  (((48 <=? n) && (n <=? 57)) || ((65 <=? n) && (n <=? 90))
   || ((97 <=? n) && (n <=? 122)) || (n =? 170)
   || ((178 <=? n) && (n <=? 179)) || (n =? 181)
   || ((185 <=? n) && (n <=? 186)) || ((188 <=? n) && (n <=? 190))
   || ((192 <=? n) && (n <=? 214)) || ((216 <=? n) && (n <=? 246))
   || ((248 <=? n) && (n <=? 255)))%N.

(** [c in chars] for a character [c]. *)
Fixpoint char_in (c : ascii) (chars : string) : bool :=
  match chars with
  | EmptyString => false
  | String x rest => Ascii.eqb x c || char_in c rest
  end.

(** ["".join(c for c in s if p(c))] *)
Fixpoint filter_chars (p : ascii -> bool) (s : string) : string :=
  match s with
  | EmptyString => EmptyString
  | String c s' =>
      if p c then String c (filter_chars p s') else filter_chars p s'
  end.

(** [s.replace(old, new)] for one-character [old] and [new]. *)
Fixpoint replace_char (old new : ascii) (s : string) : string :=
  match s with
  | EmptyString => EmptyString
  | String c s' =>
      String (if Ascii.eqb c old then new else c) (replace_char old new s')
  end.

(** [all(p(c) for c in s)] *)
Fixpoint all_chars (p : ascii -> bool) (s : string) : bool :=
  match s with
  | EmptyString => true
  | String c s' => p c && all_chars p s'
  end.

(** The mathematical reading of [needle in hay]. *)
Definition contains (needle hay : string) : Prop :=
  exists pre post, hay = pre ++ needle ++ post.

End PyStr.

(* ================================================================= *)
(** ** The browser session as seen by the extraction code *)

Module Dom.

(** Outcome of an operation that may raise. *)
Inductive result (A : Type) : Type :=
| Ok (a : A)
| Raised.
Arguments Ok {A} a.
Arguments Raised {A}.

(** Outcome of a bounded wait: [WebDriverWait.until] raises
    [TimeoutException] when the condition never holds, and lets any other
    exception of the condition through. *)
Inductive waited (A : Type) : Type :=
| Located (a : A)
| TimedOut
| Failed.
Arguments Located {A} a.
Arguments TimedOut {A}.
Arguments Failed {A}.

(** A [WebElement], by what the code reads from it. *)
Record element : Type := mkElement {
  text : result string;                    (* elem.text *)
  inner_html : result (option string);     (* elem.get_attribute('innerHTML') *)
  tag_name : result string;                (* elem.tag_name *)
  href : result (option string)            (* elem.get_attribute('href') *)
}.

(** The page behind a [driver], by CSS selector. *)
Record document : Type := mkDocument {
  wait_presence : string -> waited element;        (* wait.until(presence_of_element_located) *)
  find_element : string -> result element;         (* driver.find_element *)
  find_elements : string -> result (list element)  (* driver.find_elements *)
}.

(** An element that only carries text. *)
Definition text_element (s : string) : element :=
  mkElement (Ok s) (Ok None) (Ok "div") (Ok None).

(** The browser session driven by [run]: the page it shows, and the
    calls that act on the browser.  Any of these calls can raise. *)
Record session : Type := mkSession {
  page : document;
  get : string -> result unit;             (* driver.get(url) *)
  wait_visible : string -> waited unit;    (* wait.until(visibility_of_element_located) *)
  execute_script : string -> result unit   (* driver.execute_script(script, ...) *)
}.

End Dom.

(* ================================================================= *)
(** ** job_page_scraper.py *)

Module JobPageScraper.
Import PyStr Dom.

Definition selector_table : Type := list (string * list string).

Definition VIEW_PAGE_SELECTORS : selector_table :=
  [ ("title",
     [ ".top-card-layout__title";
       ".top-card-layout__title h1";
       "h1.top-card-layout__title";
       ".job-details-jobs-unified-top-card__job-title h1";
       ".job-details-jobs-unified-top-card__job-title" ]);
    ("company_name",
     [ ".top-card-layout__second-subline a.topcard__org-name-link";
       ".topcard__org-name-link";
       ".top-card-layout__second-subline a";
       ".job-details-jobs-unified-top-card__company-name";
       ".job-details-jobs-unified-top-card__company-name a" ]);
    ("location",
     [ ".top-card-layout__second-subline > div:first-child";
       ".topcard__flavor--bullet";
       ".job-details-jobs-unified-top-card__bullet" ]);
    ("description_container",
     [ ".description__text";
       ".jobs-description-content__text";
       ".jobs-description__content";
       ".job-details-jobs-unified-top-card__job-description";
       ".jobs-box__html-content" ]);
    ("description_show_more_button",
     [ ".description__footer-button";
       ".jobs-description__footer-button";
       ".jobs-description-content__footer button";
       "button[data-tracking-control-name='public_jobs_show-more-html-btn']" ]);
    ("criteria_list",
     [ ".description__job-criteria-list li";
       ".job-details-jobs-unified-top-card__job-insight";
       ".jobs-unified-top-card__job-insight";
       ".job-details-jobs-unified-top-card__job-insight-view-model" ]) ].

Definition SEARCH_PAGE_SELECTORS : selector_table :=
  [ ("details_pane",
     [ ".scaffold-layout__detail";
       ".jobs-search__job-details";
       ".job-details-jobs-unified-top-card" ]);
    ("title",
     [ ".job-details-jobs-unified-top-card__job-title";
       ".job-details-jobs-unified-top-card__job-title h1";
       ".jobs-unified-top-card__job-title";
       ".jobs-unified-top-card__job-title h1" ]);
    ("company_name",
     [ "div.job-details-jobs-unified-top-card__primary-description-container a";
       ".job-details-jobs-unified-top-card__company-name";
       ".job-details-jobs-unified-top-card__company-name a";
       ".jobs-unified-top-card__subtitle-primary-grouping a" ]);
    ("location",
     [ "div.job-details-jobs-unified-top-card__primary-description-container > div:nth-child(2)";
       ".job-details-jobs-unified-top-card__bullet";
       ".jobs-unified-top-card__bullet" ]);
    ("description_container",
     [ ".jobs-description-content__text";
       ".jobs-description__content";
       ".job-details-jobs-unified-top-card__job-description";
       ".jobs-box__html-content" ]);
    ("description_show_more_button",
     [ ".jobs-description__footer-button";
       ".jobs-description-content__footer button";
       "button[data-tracking-control-name='public_jobs_show-more-html-btn']" ]);
    ("criteria_list",
     [ ".job-details-jobs-unified-top-card__job-insight";
       ".jobs-unified-top-card__job-insight";
       ".job-details-jobs-unified-top-card__job-insight-view-model" ]) ].

(** [table.get(key, [])] *)
Fixpoint selectors_get (table : selector_table) (key : string) : list string :=
  match table with
  | [] => []
  | (k, v) :: rest => if String.eqb k key then v else selectors_get rest key
  end.

(** [LinkedInJobScraper._detect_page_type] *)
Definition _detect_page_type (job_url : string) : string :=
  if str_in "/jobs/search/" job_url then "search"
  else if str_in "/jobs/view/" job_url then "view"
  else "search".

(** The choice of catalog in [LinkedInJobScraper.__init__]. *)
Definition selectors_of (page_type : string) : selector_table :=
  if String.eqb page_type "search" then SEARCH_PAGE_SELECTORS
  else VIEW_PAGE_SELECTORS.

(** The page types of the specification, and the one a tag returned by
    the detector stands for. *)
Inductive PageType : Type := Search | View | Unknown.

Definition page_type_of_tag (tag : string) : PageType :=
  if String.eqb tag "search" then Search
  else if String.eqb tag "view" then View
  else Unknown.

(** One round of the loop of [_get_element_text_with_fallbacks]: the
    text to return, or [None] to go on with the next selector. *)
Definition probe_text (doc : document) (selector : string) : option string :=
  match wait_presence doc selector with
  | Located element =>
      match text element with
      | Ok raw =>
          let text := strip raw in
          if String.eqb text "" then None else Some text
      | Raised => None
      end
  | TimedOut => None
  | Failed => None
  end.

(** The loop of [_get_element_text_with_fallbacks] over a selector list. *)
Fixpoint text_with_fallbacks (doc : document) (selectors : list string)
  : option string :=
  match selectors with
  | [] => None
  | selector :: rest =>
      match probe_text doc selector with
      | Some text => Some text
      | None => text_with_fallbacks doc rest
      end
  end.

(** [LinkedInJobScraper._get_element_text_with_fallbacks] *)
Definition _get_element_text_with_fallbacks
  (selectors : selector_table) (doc : document) (selector_key : string)
  : option string :=
  text_with_fallbacks doc (selectors_get selectors selector_key).

(** What the resolver rule speaks of: the selector locates an element
    whose text, stripped, is [t]. *)
Definition yields (doc : document) (selector t : string) : Prop :=
  exists element raw,
    wait_presence doc selector = Located element /\
    text element = Ok raw /\ t = strip raw.

(** A selector that does not count: nothing located, or the located
    element has no text beyond whitespace. *)
Definition non_match (doc : document) (selector : string) : Prop :=
  forall t, yields doc selector t -> t = "".

(** One round of the loop of [_get_element_html_with_fallbacks]. *)
Definition probe_html (doc : document) (selector : string) : option string :=
  match wait_presence doc selector with
  | Located element =>
      match inner_html element with
      | Ok (Some html) =>
          if String.eqb html "" then None
          else if String.eqb (strip html) "" then None
          else Some (strip html)
      | Ok None => None
      | Raised => None
      end
  | TimedOut => None
  | Failed => None
  end.

Fixpoint html_with_fallbacks (doc : document) (selectors : list string)
  : option string :=
  match selectors with
  | [] => None
  | selector :: rest =>
      match probe_html doc selector with
      | Some html => Some html
      | None => html_with_fallbacks doc rest
      end
  end.

(** [LinkedInJobScraper._get_element_html_with_fallbacks] *)
Definition _get_element_html_with_fallbacks
  (selectors : selector_table) (doc : document) (selector_key : string)
  : option string :=
  html_with_fallbacks doc (selectors_get selectors selector_key).

(** [[elem.text.strip() for elem in elements if elem.text.strip()]] *)
Fixpoint stripped_texts (elements : list element) : result (list string) :=
  match elements with
  | [] => Ok []
  | elem :: rest =>
      match text elem with
      | Raised => Raised
      | Ok raw =>
          match stripped_texts rest with
          | Raised => Raised
          | Ok texts =>
              Ok (if String.eqb (strip raw) "" then texts
                  else strip raw :: texts)
          end
      end
  end.

Fixpoint multiple_texts (doc : document) (selectors : list string)
  : list string :=
  match selectors with
  | [] => []
  | selector :: rest =>
      match find_elements doc selector with
      | Ok ((_ :: _) as elements) =>
          match stripped_texts elements with
          | Ok ((_ :: _) as texts) => texts
          | Ok [] => multiple_texts doc rest
          | Raised => multiple_texts doc rest
          end
      | Ok [] => multiple_texts doc rest
      | Raised => multiple_texts doc rest
      end
  end.

(** [LinkedInJobScraper._get_multiple_elements_text] *)
Definition _get_multiple_elements_text
  (selectors : selector_table) (doc : document) (selector_key : string)
  : list string :=
  multiple_texts doc (selectors_get selectors selector_key).

(** The three optional keys of [_extract_additional_info]; [None] is an
    absent key. *)
Record additional_info : Type := mkAdditional {
  info_posted_date : option string;
  info_job_type : option string;
  info_seniority_level : option string
}.

Definition date_selectors : list string :=
  [ ".job-details-jobs-unified-top-card__primary-description-container time";
    ".jobs-unified-top-card__posted-date";
    ".job-details-jobs-unified-top-card__posted-date" ].

Definition job_type_selectors : list string :=
  [ ".job-details-jobs-unified-top-card__job-insight span";
    ".jobs-unified-top-card__job-insight span" ].

Definition job_type_keywords : list string :=
  [ "full-time"; "part-time"; "contract"; "internship" ].

Definition seniority_keywords : list string :=
  [ "entry level"; "associate"; "mid-senior"; "director"; "executive" ].

Fixpoint posted_date_scan (doc : document) (selectors : list string)
  : option string :=
  match selectors with
  | [] => None
  | selector :: rest =>
      match find_element doc selector with
      | Ok date_element =>
          match text date_element with
          | Ok raw => Some (strip raw)
          | Raised => posted_date_scan doc rest
          end
      | Raised => posted_date_scan doc rest
      end
  end.

(** The inner loop of the job-type scan: the first element naming a job
    type, unless reading a text raises first. *)
Fixpoint job_type_in (elements : list element) : result (option string) :=
  match elements with
  | [] => Ok None
  | elem :: rest =>
      match text elem with
      | Raised => Raised
      | Ok raw =>
          if any_in job_type_keywords (lower (strip raw))
          then Ok (Some (strip raw))
          else job_type_in rest
      end
  end.

Fixpoint job_type_scan (doc : document) (selectors : list string)
  : option string :=
  match selectors with
  | [] => None
  | selector :: rest =>
      match find_elements doc selector with
      | Ok elements =>
          match job_type_in elements with
          | Ok (Some t) => Some t
          | Ok None => job_type_scan doc rest
          | Raised => job_type_scan doc rest
          end
      | Raised => job_type_scan doc rest
      end
  end.

(** The inner loop of the seniority scan.  Its [break] leaves the keyword
    loop only, so every element is visited and a later one overwrites an
    earlier one.  The boolean tells that reading a text raised. *)
Fixpoint seniority_in (elements : list element) (current : option string)
  : option string * bool :=
  match elements with
  | [] => (current, false)
  | elem :: rest =>
      match text elem with
      | Raised => (current, true)
      | Ok raw =>
          if any_in seniority_keywords (lower (strip raw))
          then seniority_in rest (Some (strip raw))
          else seniority_in rest current
      end
  end.

Fixpoint seniority_scan (doc : document) (selectors : list string)
  (current : option string) : option string :=
  match selectors with
  | [] => current
  | selector :: rest =>
      match find_elements doc selector with
      | Ok elements =>
          match seniority_in elements current with
          | (current', true) => seniority_scan doc rest current'
          | (Some level, false) => Some level
          | (None, false) => seniority_scan doc rest None
          end
      | Raised => seniority_scan doc rest current
      end
  end.

(** [LinkedInJobScraper._extract_additional_info] *)
Definition _extract_additional_info (doc : document) : additional_info :=
  mkAdditional (posted_date_scan doc date_selectors)
               (job_type_scan doc job_type_selectors)
               (seniority_scan doc job_type_selectors None).

(** A token looked for in a text: a text of the modelled range, or a
    single character beyond code point 255, which no text of the
    modelled range contains. *)
Inductive token : Type :=
| Within (w : string)
| Beyond (code_point : N).

(** [token in s] for a text [s] of the modelled range. *)
Definition token_in (t : token) (s : string) : bool :=
  match t with
  | Within w => str_in w s
  | Beyond _ => false
  end.

(** [any(t in s for t in tokens)] *)
Definition any_token_in (tokens : list token) (s : string) : bool :=
  existsb (fun t => token_in t s) tokens.

(** The seven tokens of the salary scan: the dollar, euro (U+20AC),
    pound (U+00A3) and rupee (U+20B9) signs and three words. *)
Definition salary_tokens : list token :=
  [ Within "$"; Beyond 8364; Within (String (ascii_of_nat 163) "");
    Beyond 8377; Within "salary"; Within "compensation"; Within "pay" ].

Fixpoint find_salary (criteria : list string) : option string :=
  match criteria with
  | [] => None
  | criterion :: rest =>
      if any_token_in salary_tokens (lower criterion) then Some criterion
      else find_salary rest
  end.

(** The dictionary returned by [run].  For the first nine fields the key
    is always present and [None] is Python's [None]; for the last three
    [None] is an absent key. *)
Record job_data : Type := mkJobData {
  job_title : string;
  company_name : option string;
  location : option string;
  salary_info : option string;
  job_criteria : list string;
  job_description_html : option string;
  job_description_text : option string;
  url : string;
  scraped_at : string;
  posted_date : option string;
  job_type : option string;
  seniority_level : option string
}.

(** The last part of [run], from "Extracting job details" on: it reads
    the page and returns the record, or [None] when the title does not
    resolve. *)
Definition extract_job_details (doc : document) (job_url now : string)
  : option job_data :=
  let page_type := _detect_page_type job_url in
  let selectors := selectors_of page_type in
  match _get_element_text_with_fallbacks selectors doc "title" with
  | None => None
  | Some title =>
      if String.eqb title "" then None
      else
        let company_name := _get_element_text_with_fallbacks selectors doc "company_name" in
        let location := _get_element_text_with_fallbacks selectors doc "location" in
        let description_html := _get_element_html_with_fallbacks selectors doc "description_container" in
        let description_text := _get_element_text_with_fallbacks selectors doc "description_container" in
        let criteria := _get_multiple_elements_text selectors doc "criteria_list" in
        let info := _extract_additional_info doc in
        Some (mkJobData title company_name location (find_salary criteria)
                criteria description_html description_text job_url now
                (info_posted_date info) (info_job_type info)
                (info_seniority_level info))
  end.

(** The loop of [run] that waits for the details pane: only a timeout
    is caught, any other exception leaves [run]. *)
Fixpoint wait_details_pane (s : session) (selectors : list string)
  : result bool :=
  match selectors with
  | [] => Ok false
  | selector :: rest =>
      match wait_visible s selector with
      | Located _ => Ok true
      | TimedOut => wait_details_pane s rest
      | Failed => Raised
      end
  end.

(** [LinkedInJobScraper._scroll_and_wait]: two scripts, unguarded. *)
Definition _scroll_and_wait (s : session) : result unit :=
  match execute_script s "window.scrollTo(0, document.body.scrollHeight);" with
  | Raised => Raised
  | Ok _ => execute_script s "window.scrollTo(0, 0);"
  end.

(** The loop of [_expand_description]: every exception is caught and the
    next selector tried; [true] when a button was clicked. *)
Fixpoint expand_with (s : session) (selectors : list string) : bool :=
  match selectors with
  | [] => false
  | selector :: rest =>
      match find_element (page s) selector with
      | Raised => expand_with s rest
      | Ok show_more_button =>
          match execute_script s "arguments[0].scrollIntoView({block: 'center'});" with
          | Raised => expand_with s rest
          | Ok _ =>
              match execute_script s "arguments[0].click();" with
              | Raised => expand_with s rest
              | Ok _ => true
              end
          end
      end
  end.

(** [LinkedInJobScraper._expand_description] *)
Definition _expand_description (selectors : selector_table) (s : session)
  : bool :=
  expand_with s (selectors_get selectors "description_show_more_button").

(** [LinkedInJobScraper.run].  Navigation, the wait for the details pane
    and the scrolling are not guarded, so an exception of theirs leaves
    [run]; expanding the description never does.  The page is read as it
    stands after these steps. *)
Definition run (s : session) (job_url now : string)
  : result (option job_data) :=
  let page_type := _detect_page_type job_url in
  let selectors := selectors_of page_type in
  match get s job_url with
  | Raised => Raised
  | Ok _ =>
      match (if String.eqb page_type "search"
             then wait_details_pane s (selectors_get selectors "details_pane")
             else Ok false) with
      | Raised => Raised
      | Ok pane_loaded =>
          match _scroll_and_wait s with
          | Raised => Raised
          | Ok _ =>
              let expanded := _expand_description selectors s in
              Ok (extract_job_details (page s) job_url now)
          end
      end
  end.

(** The title as it goes into a file name in [save_data_to_json]:
    ["".join(c for c in title if c.isalnum() or c in " -_").rstrip()] *)
Definition safe_title (title : string) : string :=
  rstrip (filter_chars (fun c => is_alnum c || char_in c " -_") title).

(** [save_data_to_json]: the name of the file it writes, or [None] when
    it returns at its guard.  [data] is what [run] returned and [stamp]
    the clock formatted as [%Y%m%d_%H%M%S]. *)
Definition save_data_to_json (data : option job_data) (stamp : string)
  : option string :=
  match data with
  | None => None
  | Some d =>
      if String.eqb (job_title d) "" then None
      else Some ("job_" ++ safe_title (job_title d) ++ "_" ++ stamp ++ ".json")
  end.

End JobPageScraper.

(* ================================================================= *)
(** ** linkedin_job_reporter_ui.py: the listing extractor *)

Module JobReporter.
Import PyStr Dom.

(** A job card: a [WebElement] queried with [card.find_element]. *)
Record card : Type := mkCard {
  card_find : string -> result element
}.

(** The results page: [wait.until(presence_of_all_elements_located)]. *)
Record listing_page : Type := mkListingPage {
  wait_all : string -> waited (list card)
}.

(** A job dictionary.  [None] is an absent key; the value of [job_link]
    may itself be Python's [None]. *)
Record job : Type := mkJob {
  title : option string;
  job_link : option (option string);
  company : option string;
  location : option string;
  posted_time : option string;
  description : option string;
  extracted_at : option string
}.

Definition empty_job : job := mkJob None None None None None None None.

Definition job_card_selectors : list string :=
  [ ".jobs-search-results__list-item";
    ".job-card-container";
    ".jobs-search-results-list__item";
    "[data-job-id]";
    ".job-card-list" ].

Definition title_selectors : list string :=
  [ ".base-search-card__title";
    ".job-card-list__title";
    ".jobs-unified-top-card__job-title";
    ".job-card-container__link";
    "h3 a";
    ".job-card-list__title-link";
    ".job-card-list__title a" ].

Definition company_selectors : list string :=
  [ ".artdeco-entity-lockup__subtitle";
    ".base-search-card__subtitle";
    ".job-card-container__company-name";
    ".job-card-list__subtitle";
    ".job-card-container__subtitle";
    ".artdeco-entity-lockup__subtitle span";
    "h4";
    ".job-card-list__company-name" ].

Definition location_selectors : list string :=
  [ ".job-search-card__location";
    ".artdeco-entity-lockup__caption";
    ".job-card-container__metadata-item";
    ".jobs-unified-top-card__bullet";
    ".job-card-container__metadata-wrapper";
    ".job-card-list__metadata";
    ".job-card-container__secondary-description" ].

Definition time_selectors : list string :=
  [ ".job-card-container__metadata-item time";
    ".jobs-unified-top-card__subtitle-secondary-grouping time";
    ".job-card-list__metadata time";
    "time" ].

Definition desc_selectors : list string :=
  [ ".job-card-list__footer-wrapper";
    ".job-card-container__snippet";
    ".job-card-list__snippet" ].

Definition company_words : list string :=
  [ "analyst"; "engineer"; "manager"; "developer"; "specialist"; "intern";
    "associate" ].

Definition location_words : list string :=
  [ "ago"; "hour"; "day"; "week"; "month"; "year"; "posted"; "within" ].

Definition TITLE_NOT_FOUND : string := "Title not found".
Definition COMPANY_NOT_FOUND : string := "Company not found".
Definition LOCATION_NOT_FOUND : string := "Location not found".

(** [' '.join(raw.strip().split())] *)
Definition normalize (raw : string) : string :=
  join " " (split (strip raw)).

(** The text of the element a selector finds in the card, normalised;
    [None] when the lookup or the read raises. *)
Definition candidate (c : card) (selector : string) : option string :=
  match card_find c selector with
  | Ok element =>
      match text element with
      | Ok raw => Some (normalize raw)
      | Raised => None
      end
  | Raised => None
  end.

(** The job link stored with a title. *)
Definition link_of (c : card) (selector : string) (title_element : element)
  : option (option string) :=
  let first_try : result (option string) :=
    match tag_name title_element with
    | Raised => Raised
    | Ok tag =>
        if String.eqb tag "a" then href title_element
        else match card_find c (selector ++ " a") with
             | Ok link_element => href link_element
             | Raised => Raised
             end
    end in
  match first_try with
  | Ok link => Some link
  | Raised =>
      match card_find c "a.base-card__full-link, a[href*='/jobs/view/']" with
      | Ok link_element =>
          match href link_element with
          | Ok link => Some link
          | Raised => None
          end
      | Raised => None
      end
  end.

(** The title loop: the first non-empty title with its link. *)
Fixpoint title_scan (c : card) (selectors : list string)
  : option (string * option (option string)) :=
  match selectors with
  | [] => None
  | selector :: rest =>
      match card_find c selector with
      | Ok title_element =>
          match text title_element with
          | Ok raw =>
              let title_text := normalize raw in
              if String.eqb title_text "" then title_scan c rest
              else Some (title_text, link_of c selector title_element)
          | Raised => title_scan c rest
          end
      | Raised => title_scan c rest
      end
  end.

(** The test a company candidate has to pass. *)
Definition company_ok (company_text : string) : bool :=
  negb (String.eqb company_text "")
  && (0 <? String.length company_text)%nat
  && (String.length company_text <? 100)%nat
  && negb (any_in company_words (lower company_text)).

(** The test a location candidate has to pass. *)
Definition location_ok (location_text : string) : bool :=
  negb (String.eqb location_text "")
  && negb (any_in location_words (lower location_text)).

(** A loop that keeps the first candidate passing a test. *)
Fixpoint first_accepted (ok : string -> bool) (c : card)
  (selectors : list string) : option string :=
  match selectors with
  | [] => None
  | selector :: rest =>
      match candidate c selector with
      | Some t => if ok t then Some t else first_accepted ok c rest
      | None => first_accepted ok c rest
      end
  end.

(** The posted-time loop: the stripped text of the first element found,
    empty or not. *)
Fixpoint time_scan (c : card) (selectors : list string) : option string :=
  match selectors with
  | [] => None
  | selector :: rest =>
      match card_find c selector with
      | Ok time_element =>
          match text time_element with
          | Ok raw => Some (strip raw)
          | Raised => time_scan c rest
          end
      | Raised => time_scan c rest
      end
  end.

(** The description loop: [text.strip()[:200] + "..."]. *)
Fixpoint desc_scan (c : card) (selectors : list string) : option string :=
  match selectors with
  | [] => None
  | selector :: rest =>
      match card_find c selector with
      | Ok desc_element =>
          match text desc_element with
          | Ok raw => Some (substring 0 200 (strip raw) ++ "...")
          | Raised => desc_scan c rest
          end
      | Raised => desc_scan c rest
      end
  end.

(** [job_data.get(key)] is falsy: the key is absent or its text empty. *)
Definition falsy (v : option string) : bool :=
  match v with
  | None => true
  | Some s => String.eqb s ""
  end.

(** The body of the loop over the cards.  Every lookup in it is guarded,
    so the handler around the body is never entered and each card gives
    one record. *)
Definition extract_card (now : string) (c : card) : job :=
  let job_data := empty_job in
  let job_data :=
    match title_scan c title_selectors with
    | Some (title_text, link) =>
        mkJob (Some title_text) link (company job_data) (location job_data)
              (posted_time job_data) (description job_data)
              (extracted_at job_data)
    | None => job_data
    end in
  let job_data :=
    if falsy (title job_data)
    then mkJob (Some TITLE_NOT_FOUND) (job_link job_data) (company job_data)
               (location job_data) (posted_time job_data)
               (description job_data) (extracted_at job_data)
    else job_data in
  let job_data :=
    mkJob (title job_data) (job_link job_data)
          (first_accepted company_ok c company_selectors)
          (location job_data) (posted_time job_data) (description job_data)
          (extracted_at job_data) in
  let job_data :=
    if falsy (company job_data)
    then mkJob (title job_data) (job_link job_data) (Some COMPANY_NOT_FOUND)
               (location job_data) (posted_time job_data)
               (description job_data) (extracted_at job_data)
    else job_data in
  let job_data :=
    mkJob (title job_data) (job_link job_data) (company job_data)
          (first_accepted location_ok c location_selectors)
          (posted_time job_data) (description job_data)
          (extracted_at job_data) in
  let job_data :=
    if falsy (location job_data)
    then mkJob (title job_data) (job_link job_data) (company job_data)
               (Some LOCATION_NOT_FOUND) (posted_time job_data)
               (description job_data) (extracted_at job_data)
    else job_data in
  mkJob (title job_data) (job_link job_data) (company job_data)
        (location job_data) (time_scan c time_selectors)
        (desc_scan c desc_selectors) (Some now).

(** The search for the job cards: the first selector that delivers a
    non-empty list.  A failure other than a timeout leaves the function
    through its outer handler. *)
Fixpoint find_cards (page : listing_page) (selectors : list string)
  : result (list card) :=
  match selectors with
  | [] => Ok []
  | selector :: rest =>
      match wait_all page selector with
      | Located [] => find_cards page rest
      | Located job_cards => Ok job_cards
      | TimedOut => find_cards page rest
      | Failed => Raised
      end
  end.

(** [xs[:n]] for a Python integer [n]. *)
Definition slice_to {A : Type} (xs : list A) (n : Z) : list A :=
  if (0 <=? n)%Z then firstn (Z.to_nat n) xs
  else firstn (List.length xs - Z.to_nat (- n)) xs.

(** [for i, card in enumerate(cards)], with the clock read once per card. *)
Fixpoint extract_from (clock : nat -> string) (i : nat) (cards : list card)
  : list job :=
  match cards with
  | [] => []
  | c :: rest => extract_card (clock i) c :: extract_from clock (S i) rest
  end.

(** [extract_job_listings]; [clock i] is the time at which card [i] is
    stamped.  [debug_mode] only prints and is left out. *)
Definition extract_job_listings (page : listing_page) (max_jobs : Z)
  (clock : nat -> string) : list job :=
  match find_cards page job_card_selectors with
  | Raised => []
  | Ok [] => []
  | Ok job_cards => extract_from clock 0 (slice_to job_cards max_jobs)
  end.

(* ----------------------------------------------------------------- *)
(** *** The aggregator *)

(** A [collections.Counter] over strings, in insertion order. *)
Definition counter : Type := list (string * nat).

(** [c[key] += 1] *)
Fixpoint counter_incr (key : string) (c : counter) : counter :=
  match c with
  | [] => [(key, 1)]
  | (k, n) :: rest =>
      if String.eqb k key then (k, S n) :: rest
      else (k, n) :: counter_incr key rest
  end.

(** [c[key]], which is 0 for a key never counted. *)
Fixpoint counter_get (key : string) (c : counter) : nat :=
  match c with
  | [] => 0
  | (k, n) :: rest => if String.eqb k key then n else counter_get key rest
  end.

(** [sorted(items, key=itemgetter(1), reverse=True)]: a stable sort by
    falling count.  An item is put in front of the first one that does
    not count more, so equal counts keep their order. *)
Fixpoint insert_desc (x : string * nat) (sorted : counter) : counter :=
  match sorted with
  | [] => [x]
  | y :: rest =>
      if (snd y <=? snd x)%nat then x :: y :: rest
      else y :: insert_desc x rest
  end.

Fixpoint sort_desc (items : counter) : counter :=
  match items with
  | [] => []
  | x :: rest => insert_desc x (sort_desc rest)
  end.

(** [dict(c.most_common(n))] *)
Definition most_common (n : nat) (c : counter) : counter :=
  firstn n (sort_desc c).

(** [d.get(key, default)] for a key that holds a string when present. *)
Definition get_or (v : option string) (default : string) : string :=
  match v with
  | Some s => s
  | None => default
  end.

Definition company_counter (jobs : list job) : counter :=
  fold_left
    (fun c job =>
       let company := get_or (company job) "Unknown" in
       if negb (String.eqb company "Company not found")
       then counter_incr company c else c)
    jobs [].

Definition location_counter (jobs : list job) : counter :=
  fold_left
    (fun c job =>
       let location := get_or (location job) "Unknown" in
       if negb (String.eqb location "Location not found")
       then counter_incr location c else c)
    jobs [].

Definition time_counter (jobs : list job) : counter :=
  fold_left
    (fun c job =>
       let posted_time := get_or (posted_time job) "Unknown" in
       if negb (String.eqb posted_time "")
       then counter_incr posted_time c else c)
    jobs [].

Definition keywords : list string :=
  [ "analyst"; "senior"; "junior"; "manager"; "engineer"; "developer";
    "specialist"; "lead"; "principal"; "director" ].

(** The loop over the vocabulary for one lower-cased title. *)
Definition count_keywords (title : string) (c : counter) : counter :=
  fold_left
    (fun c keyword => if str_in keyword title then counter_incr keyword c else c)
    keywords c.

Definition keyword_counter (jobs : list job) : counter :=
  fold_left
    (fun c job =>
       let title := lower (get_or (title job) "") in
       if negb (String.eqb title "")
          && negb (String.eqb title "title not found")
       then count_keywords title c else c)
    jobs [].

(** The values held by the analysis dictionary. *)
Inductive value : Type :=
| VInt (n : nat)
| VStr (s : string)
| VTable (t : counter).

Definition analysis : Type := list (string * value).

(** [d.get(key)] on an analysis dictionary. *)
Fixpoint lookup (key : string) (d : analysis) : option value :=
  match d with
  | [] => None
  | (k, v) :: rest => if String.eqb k key then Some v else lookup key rest
  end.

(** [analyze_job_data]; [now] is the reading of the clock. *)
Definition analyze_job_data (now : string) (jobs : list job) : analysis :=
  match jobs with
  | [] => []
  | _ :: _ =>
      [ ("total_jobs", VInt (List.length jobs));
        ("extraction_date", VStr now);
        ("companies", VTable (most_common 10 (company_counter jobs)));
        ("locations", VTable (most_common 10 (location_counter jobs)));
        ("posting_times", VTable (most_common 10 (time_counter jobs)));
        ("title_keywords", VTable (most_common 10 (keyword_counter jobs)));
        ("unique_companies", VInt (List.length (company_counter jobs)));
        ("unique_locations", VInt (List.length (location_counter jobs))) ]
  end.

(* ----------------------------------------------------------------- *)
(** *** Vocabulary for stating what the aggregator computes *)

(** The keys each counter is fed, in the order of the loop. *)
Definition company_keys (jobs : list job) : list string :=
  filter (fun k => negb (String.eqb k "Company not found"))
         (map (fun job => get_or (company job) "Unknown") jobs).

Definition location_keys (jobs : list job) : list string :=
  filter (fun k => negb (String.eqb k "Location not found"))
         (map (fun job => get_or (location job) "Unknown") jobs).

Definition time_keys (jobs : list job) : list string :=
  filter (fun k => negb (String.eqb k ""))
         (map (fun job => get_or (posted_time job) "Unknown") jobs).

Definition keyword_keys (jobs : list job) : list string :=
  flat_map
    (fun job =>
       filter (fun keyword => str_in keyword (lower (get_or (title job) "")))
              keywords)
    jobs.

(** A counter fed a sequence of keys. *)
Definition count_all (keys : list string) : counter :=
  fold_left (fun c key => counter_incr key c) keys [].

(** The distinct keys of a sequence, in the order of their first
    occurrences. *)
Fixpoint uniq (keys : list string) : list string :=
  match keys with
  | [] => []
  | k :: rest => k :: filter (fun x => negb (String.eqb x k)) (uniq rest)
  end.

(** Position of the first occurrence of a key in a sequence (its length
    when the key does not occur). *)
Fixpoint first_index (key : string) (keys : list string) : nat :=
  match keys with
  | [] => 0
  | k :: rest => if String.eqb k key then 0 else S (first_index key rest)
  end.

(** Number of occurrences of a key in a sequence. *)
Definition occurrences (key : string) (keys : list string) : nat :=
  List.length (filter (String.eqb key) keys).

(** The order of a top view: a larger count comes first, and of two equal
    counts the key met first in the input comes first. *)
Definition ranks_before (keys : list string) (a b : string * nat) : Prop :=
  snd b < snd a \/
  (snd a = snd b /\ first_index (fst a) keys < first_index (fst b) keys).

(** A top-10 view of the frequencies of [keys]. *)
Definition top10_of (keys : list string) (view : counter) : Prop :=
  List.length view <= 10 /\
  StronglySorted (ranks_before keys) view /\
  Forall (fun e => 0 < snd e /\ snd e = occurrences (fst e) keys) view /\
  (forall k, In k keys -> ~ In k (map fst view) ->
     List.length view = 10 /\
     Forall (fun e => ranks_before keys e (k, occurrences k keys)) view).

(* ----------------------------------------------------------------- *)
(** *** Saving a report *)

(** The file name built by [save_report]; [timestamp] is the clock
    formatted as [%Y%m%d_%H%M%S]. *)
Definition report_filename (job_title location output_format timestamp : string)
  : string :=
  let location_suffix :=
    if String.eqb location "" then ""
    else "_" ++ replace_char " " "_" location in
  "linkedin_jobs_report_" ++ replace_char " " "_" job_title
    ++ location_suffix ++ "_" ++ timestamp ++ "." ++ output_format.

End JobReporter.

(* ================================================================= *)
(** ** Statements and inputs used by the properties below *)

Module Scenarios.
Import PyStr Dom JobPageScraper JobReporter.

(** The page of the specification's resolver example: [.a] is present
    with empty text, [.b] is present with text "Acme". *)
Definition example_page : document :=
  mkDocument
    (fun selector =>
       if String.eqb selector ".a" then Located (text_element "")
       else if String.eqb selector ".b" then Located (text_element "Acme")
       else TimedOut)
    (fun _ => Raised)
    (fun _ => Ok []).

(** The third case of the page-type rule as the specification words it:
    an address with neither marker is of unknown type. *)
Definition unknown_for_other_addresses : Prop :=
  forall job_url,
    ~ contains "/jobs/search/" job_url ->
    ~ contains "/jobs/view/" job_url ->
    page_type_of_tag (_detect_page_type job_url) = Unknown.

(** A company candidate the code accepts: not empty, shorter than 100
    characters, no job-title word in its lower-cased form. *)
Definition company_valid (t : string) : Prop :=
  t <> "" /\ String.length t < 100 /\
  Forall (fun w => ~ contains w (lower t)) company_words.

(** The same test with the bound as the specification words it: a
    candidate is turned down only when it exceeds 100 characters. *)
Definition company_valid_as_stated (t : string) : Prop :=
  t <> "" /\ String.length t <= 100 /\
  Forall (fun w => ~ contains w (lower t)) company_words.

(** The selector's candidate does not pass the company test. *)
Definition company_rejected (c : card) (selector : string) : Prop :=
  forall t, candidate c selector = Some t -> ~ company_valid t.

Fixpoint replicate (n : nat) (ch : ascii) : string :=
  match n with
  | O => EmptyString
  | S n' => String ch (replicate n' ch)
  end.

(** A card in which only the first company selector finds an element. *)
Definition company_only_card (company_text : string) : card :=
  mkCard (fun selector =>
            if String.eqb selector ".artdeco-entity-lockup__subtitle"
            then Ok (text_element company_text) else Raised).

(** A results page showing the given cards under the first selector. *)
Definition page_of (cards : list card) : listing_page :=
  mkListingPage (fun selector =>
                   if String.eqb selector ".jobs-search-results__list-item"
                   then Located cards else TimedOut).

(** A record with a title and a company and nothing else. *)
Definition titled (job_title job_company : string) : job :=
  mkJob (Some job_title) None (Some job_company) None None None None.

(** The three records of the specification's aggregation scenario. *)
Definition scenario_jobs : list job :=
  [ titled "Senior ML Engineer" "Acme";
    titled "ML Engineer" "Acme";
    titled "Junior Data Analyst" "Beta" ].

(** Records whose companies are A, B, A, C, B, A. *)
Definition tie_jobs : list job :=
  map (titled "Clerk") [ "A"; "B"; "A"; "C"; "B"; "A" ].

(** The entries of a full table that a sequence of values accounts for:
    the count of [key] is the number of records whose field, read with
    the default "Unknown", equals [key], unless [key] is [excluded]. *)
Definition counts_field (field : job -> option string) (excluded : string)
  (jobs : list job) (table : counter) : Prop :=
  forall key,
    counter_get key table =
    if String.eqb key excluded then 0
    else occurrences key (map (fun j => get_or (field j) "Unknown") jobs).

(** A candidate of exactly 100 characters, free of job-title words. *)
Definition hundred_x : string := replicate 100 "x"%char.

(** A card in which no selector finds anything. *)
Definition bare_card : card := mkCard (fun _ => Raised).

(** Number of records whose lower-cased title contains a keyword. *)
Definition titles_containing (keyword : string) (jobs : list job) : nat :=
  List.length
    (filter (fun j => str_in keyword (lower (get_or (title j) ""))) jobs).

(** The vocabulary in the order the specification lists it. *)
Definition stated_vocabulary : list string :=
  [ "senior"; "junior"; "manager"; "engineer"; "developer"; "specialist";
    "lead"; "principal"; "director"; "analyst" ].

(** The keys every emitted record holds. *)
Definition has_required_keys (j : job) : Prop :=
  (exists t, title j = Some t /\ t <> "") /\
  (exists c, company j = Some c /\ c <> "") /\
  (exists l, location j = Some l /\ l <> "") /\
  (exists stamp, extracted_at j = Some stamp).

(* ----------------------------------------------------------------- *)
(** *** Vocabulary for the further properties *)

(** The selector locates an element whose markup, stripped, is [h]. *)
Definition yields_html (doc : document) (selector h : string) : Prop :=
  exists element raw,
    wait_presence doc selector = Located element /\
    inner_html element = Ok (Some raw) /\ h = strip raw.

Definition html_non_match (doc : document) (selector : string) : Prop :=
  forall h, yields_html doc selector h -> h = "".

(** The selector finds elements whose non-blank stripped texts are [ts]. *)
Definition texts_of (doc : document) (selector : string) (ts : list string)
  : Prop :=
  exists elements,
    find_elements doc selector = Ok elements /\
    stripped_texts elements = Ok ts.

Definition yields_no_text (doc : document) (selector : string) : Prop :=
  forall ts, texts_of doc selector ts -> ts = [].


(** The stripped texts, among those read from a list of elements, whose
    lower-cased form contains one of the given words. *)
Definition matching_texts (words : list string) (raws : list string)
  : list string :=
  filter (fun t => any_in words (lower t)) (map strip raws).

(** A location candidate the code accepts. *)
Definition location_valid (t : string) : Prop :=
  t <> "" /\ Forall (fun w => ~ contains w (lower t)) location_words.

Definition location_rejected (c : card) (selector : string) : Prop :=
  forall t, candidate c selector = Some t -> ~ location_valid t.

(** A selector that does not deliver job cards: the wait times out or
    delivers an empty list. *)
Definition no_cards (page : listing_page) (selector : string) : Prop :=
  wait_all page selector = TimedOut \/ wait_all page selector = Located [].

(** A character allowed in a file-name title. *)
Definition title_char (c : ascii) : bool := is_alnum c || char_in c " -_".

(** A character that is no whitespace, or is the plain space. *)
Definition plain_space_or_ink (c : ascii) : bool :=
  negb (is_space c) || Ascii.eqb c " ".

Definition not_space (c : ascii) : bool := negb (Ascii.eqb c " ").

(** The values of a field over a record sequence, read with the default
    "Unknown" as the aggregator does. *)
Definition field_values (field : job -> option string) (jobs : list job)
  : list string :=
  map (fun j => get_or (field j) "Unknown") jobs.

(** A text with something in it and no whitespace around it. *)
Definition clean (t : string) : Prop := t <> "" /\ strip t = t.


(** A search page showing a title and three insight items, each of them
    also carrying a span with the same text. *)
Definition insight_page : document :=
  mkDocument
    (fun selector =>
       if String.eqb selector ".job-details-jobs-unified-top-card__job-title"
       then Located (text_element " ML Engineer ")
       else TimedOut)
    (fun _ => Raised)
    (fun selector =>
       if String.eqb selector ".job-details-jobs-unified-top-card__job-insight"
          || String.eqb selector
               ".job-details-jobs-unified-top-card__job-insight span"
       then Ok [ text_element "Full-time - Associate";
                 text_element " $120,000/yr - Contract ";
                 text_element "Mid-Senior level" ]
       else Ok []).

Definition insight_url : string :=
  "https://www.linkedin.com/jobs/search/?currentJobId=4255281290".

Definition insight_raws : list string :=
  [ "Full-time - Associate"; " $120,000/yr - Contract "; "Mid-Senior level" ].

(** A session showing a page, in which every call on the browser
    succeeds and the details pane is visible under each selector. *)
Definition session_on (doc : document) : session :=
  mkSession doc (fun _ => Ok tt) (fun _ => Located tt) (fun _ => Ok tt).


(** An exception leaves [run] before it reads the page: navigation
    raises, or the wait for the details pane of a search page fails
    other than by timing out, or one of the two scroll scripts raises. *)
Definition raises_while_loading (s : session) (job_url : string) : Prop :=
  get s job_url = Raised \/
  (_detect_page_type job_url = "search" /\
   exists pre selector post,
     selectors_get SEARCH_PAGE_SELECTORS "details_pane"
       = (pre ++ selector :: post)%list /\
     Forall (fun x => wait_visible s x = TimedOut) pre /\
     wait_visible s selector = Failed) \/
  execute_script s "window.scrollTo(0, document.body.scrollHeight);" = Raised \/
  execute_script s "window.scrollTo(0, 0);" = Raised.

(** The element a selector finds in a card can be read, and its text is
    [raw]. *)
Definition readable (c : card) (selector raw : string) : Prop :=
  exists element, card_find c selector = Ok element /\ text element = Ok raw.


End Scenarios.

(* ================================================================= *)
(** ** Facts about the string operations *)

Module PyStrFacts.
Import PyStr.

Lemma starts_with_app (n h : string) :
  starts_with n h = true <-> exists post, h = n ++ post.
Proof.
  revert h; induction n as [|a n IH]; intros h; simpl.
  - split; [intros _; now exists h | reflexivity].
  - destruct h as [|b h].
    + split; [discriminate | intros [p Hp]; discriminate].
    + rewrite andb_true_iff, Ascii.eqb_eq, IH. split.
      * intros [-> [p ->]]. now exists p.
      * intros [p Hp]. inversion Hp. split; [reflexivity | now exists p].
Qed.

Lemma str_in_contains (n h : string) :
  str_in n h = true <-> contains n h.
Proof.
  induction h as [|b h IH].
  - simpl. rewrite orb_false_r, starts_with_app. split.
    + intros [p Hp]. now exists EmptyString, p.
    + intros [pre [post H]]. destruct pre; [now exists post|discriminate].
  - simpl. rewrite orb_true_iff, starts_with_app, IH. split.
    + intros [[p Hp] | [pre [post H]]].
      * now exists EmptyString, p.
      * exists (String b pre), post. simpl. now rewrite H.
    + intros [pre [post H]]. destruct pre as [|c pre].
      * left. now exists post.
      * right. simpl in H. inversion H. now exists pre, post.
Qed.

Lemma str_in_not_contains (n h : string) :
  str_in n h = false <-> ~ contains n h.
Proof.
  rewrite <- str_in_contains. destruct (str_in n h); split; congruence.
Qed.

Lemma lstrip_empty (s : string) :
  lstrip s = EmptyString <-> all_space s = true.
Proof.
  induction s as [|c s IH]; simpl.
  - tauto.
  - destruct (is_space c); simpl; [exact IH|]. split; discriminate.
Qed.

Lemma rstrip_empty (s : string) :
  rstrip s = EmptyString <-> all_space s = true.
Proof.
  induction s as [|c s IH]; simpl.
  - tauto.
  - destruct (rstrip s) eqn:E.
    + destruct (is_space c); simpl.
      * split; [intros _; now apply IH | reflexivity].
      * split; discriminate.
    + split; [discriminate|]. rewrite andb_true_iff. intros [_ H].
      apply IH in H. discriminate.
Qed.

Lemma all_space_lstrip (s : string) :
  all_space (lstrip s) = all_space s.
Proof.
  induction s as [|c s IH]; simpl; [reflexivity|].
  destruct (is_space c) eqn:E; simpl; [exact IH | now rewrite E].
Qed.

(** Stripping leaves nothing exactly when the text is blank. *)
Lemma strip_empty (s : string) :
  strip s = EmptyString <-> all_space s = true.
Proof.
  unfold strip. now rewrite rstrip_empty, all_space_lstrip.
Qed.

End PyStrFacts.

(* ================================================================= *)
(** ** job_page_scraper.py: page type, resolver, record extractor *)

Module JobPageScraperFacts.
Import PyStr Dom JobPageScraper PyStrFacts.

Lemma detect_search_marker (job_url : string) :
  str_in "/jobs/search/" job_url = true ->
  _detect_page_type job_url = "search".
Proof. unfold _detect_page_type. now intros ->. Qed.

Lemma detect_view_marker (job_url : string) :
  str_in "/jobs/search/" job_url = false ->
  str_in "/jobs/view/" job_url = true ->
  _detect_page_type job_url = "view".
Proof. unfold _detect_page_type. now intros -> ->. Qed.

Lemma detect_no_marker (job_url : string) :
  str_in "/jobs/search/" job_url = false ->
  str_in "/jobs/view/" job_url = false ->
  _detect_page_type job_url = "search".
Proof. unfold _detect_page_type. now intros -> ->. Qed.

(** The detector has two answers only. *)
Lemma detect_two_valued (job_url : string) :
  _detect_page_type job_url = "search" \/ _detect_page_type job_url = "view".
Proof.
  unfold _detect_page_type.
  destruct (str_in "/jobs/search/" job_url); [now left|].
  destruct (str_in "/jobs/view/" job_url); [now right | now left].
Qed.

Lemma probe_text_some (doc : document) (selector t : string) :
  probe_text doc selector = Some t <-> yields doc selector t /\ t <> "".
Proof.
  unfold probe_text, yields. split.
  - destruct (wait_presence doc selector) as [e| |] eqn:W; try discriminate.
    destruct (text e) as [raw|] eqn:T; try discriminate.
    destruct (String.eqb (strip raw) "") eqn:E; try discriminate.
    intros [= <-]. apply String.eqb_neq in E. split; [|exact E].
    now exists e, raw.
  - intros [[e [raw [W [T ->]]]] Hne]. rewrite W, T.
    apply String.eqb_neq in Hne. now rewrite Hne.
Qed.

Lemma probe_text_none (doc : document) (selector : string) :
  probe_text doc selector = None <-> non_match doc selector.
Proof.
  split.
  - intros HN t Hy. destruct (string_dec t "") as [|Hne]; [assumption|].
    assert (probe_text doc selector = Some t) as HS
      by (apply probe_text_some; now split).
    congruence.
  - intros HN. destruct (probe_text doc selector) as [t|] eqn:P; [|reflexivity].
    apply probe_text_some in P. destruct P as [Hy Hne].
    now apply HN in Hy.
Qed.

Lemma text_with_fallbacks_spec (doc : document) (selectors : list string) :
  match text_with_fallbacks doc selectors with
  | Some t =>
      t <> "" /\
      exists pre s post,
        selectors = (pre ++ s :: post)%list /\
        Forall (non_match doc) pre /\ yields doc s t
  | None => Forall (non_match doc) selectors
  end.
Proof.
  induction selectors as [|s rest IH]; simpl.
  - constructor.
  - destruct (probe_text doc s) as [t|] eqn:P.
    + apply probe_text_some in P. destruct P as [Hy Hne].
      split; [exact Hne|]. now exists [], s, rest.
    + apply probe_text_none in P.
      destruct (text_with_fallbacks doc rest) as [t|].
      * destruct IH as [Hne [pre [s' [post [-> [Hpre Hy]]]]]].
        split; [exact Hne|]. exists (s :: pre), s', post.
        repeat split; [now constructor | exact Hy].
      * now constructor.
Qed.


End JobPageScraperFacts.

(* ================================================================= *)
(** ** Counters and their top views *)

Module CounterFacts.
Import PyStr JobReporter.

Lemma occurrences_nil (k : string) : occurrences k [] = 0.
Proof. reflexivity. Qed.

Lemma occurrences_cons (k x : string) (keys : list string) :
  occurrences k (x :: keys) =
  (if String.eqb k x then 1 else 0) + occurrences k keys.
Proof. unfold occurrences. simpl. now destruct (String.eqb k x). Qed.

Lemma occurrences_app (k : string) (xs ys : list string) :
  occurrences k (xs ++ ys)%list = occurrences k xs + occurrences k ys.
Proof. unfold occurrences. now rewrite filter_app, length_app. Qed.

Lemma occurrences_pos (k : string) (keys : list string) :
  In k keys <-> 0 < occurrences k keys.
Proof.
  induction keys as [|x keys IH]; simpl.
  - unfold occurrences; simpl. split; [tauto | lia].
  - rewrite occurrences_cons. destruct (String.eqb k x) eqn:E.
    + apply String.eqb_eq in E. split; [lia | intros _; left; congruence].
    + apply String.eqb_neq in E. rewrite IH. simpl. split.
      * intros [H | H]; [congruence | exact H].
      * intros H; now right.
Qed.

(** *** The distinct keys *)

Lemma in_uniq (k : string) (keys : list string) :
  In k (uniq keys) <-> In k keys.
Proof.
  induction keys as [|x keys IH]; simpl; [tauto|].
  rewrite filter_In, IH, negb_true_iff, String.eqb_neq.
  destruct (string_dec x k) as [->|Hne]; [tauto|].
  split; [tauto|]. intros [H|H]; [tauto|]. right. split; congruence.
Qed.

Lemma NoDup_filter {A : Type} (p : A -> bool) (l : list A) :
  NoDup l -> NoDup (filter p l).
Proof.
  induction 1 as [|x l Hx Hl IH]; simpl; [constructor|].
  destruct (p x); [constructor|]; auto.
  rewrite filter_In. tauto.
Qed.

Lemma NoDup_uniq (keys : list string) : NoDup (uniq keys).
Proof.
  induction keys as [|x keys IH]; simpl; constructor.
  - rewrite filter_In, negb_true_iff, String.eqb_neq. tauto.
  - now apply NoDup_filter.
Qed.

Lemma uniq_snoc (keys : list string) (k : string) :
  uniq (keys ++ [k]) =
  if existsb (String.eqb k) keys then uniq keys else (uniq keys ++ [k])%list.
Proof.
  induction keys as [|x keys IH]; simpl; [reflexivity|].
  rewrite IH. destruct (String.eqb k x) eqn:E; simpl.
  - apply String.eqb_eq in E. subst x.
    destruct (existsb (String.eqb k) keys); [reflexivity|].
    rewrite filter_app. simpl. rewrite String.eqb_refl. simpl.
    now rewrite app_nil_r.
  - destruct (existsb (String.eqb k) keys); [reflexivity|].
    rewrite filter_app. simpl. now rewrite E.
Qed.

Lemma existsb_eqb_In (k : string) (keys : list string) :
  existsb (String.eqb k) keys = true <-> In k keys.
Proof.
  rewrite existsb_exists. split.
  - intros [x [Hx E]]. apply String.eqb_eq in E. congruence.
  - intros H. exists k. split; [exact H | apply String.eqb_refl].
Qed.

(** *** A counter is the table of occurrences of the distinct keys *)

Definition table_of (f : string -> nat) (l : list string) : counter :=
  map (fun x => (x, f x)) l.

Lemma counter_incr_absent (k : string) (f : string -> nat) (l : list string) :
  ~ In k l ->
  counter_incr k (table_of f l) = (table_of f l ++ [(k, 1)])%list.
Proof.
  induction l as [|x l IH]; simpl; intros H; [reflexivity|].
  destruct (String.eqb x k) eqn:E.
  - apply String.eqb_eq in E. tauto.
  - rewrite IH; tauto.
Qed.

Lemma table_of_ext (f g : string -> nat) (l : list string) :
  (forall x, In x l -> f x = g x) -> table_of f l = table_of g l.
Proof.
  intros H. unfold table_of. apply map_ext_in. intros x Hx. now rewrite H.
Qed.

Lemma counter_incr_present (k : string) (f : string -> nat) (l : list string) :
  NoDup l -> In k l ->
  counter_incr k (table_of f l) =
  table_of (fun x => (if String.eqb k x then 1 else 0) + f x) l.
Proof.
  induction 1 as [|x l Hx Hl IH]; simpl; intros Hk; [tauto|].
  destruct (String.eqb x k) eqn:E.
  - apply String.eqb_eq in E. subst x. rewrite String.eqb_refl. simpl.
    f_equal. apply table_of_ext. intros y Hy.
    destruct (String.eqb k y) eqn:E'; [|reflexivity].
    apply String.eqb_eq in E'. subst y. tauto.
  - rewrite String.eqb_sym, E. simpl. f_equal. apply IH.
    apply String.eqb_neq in E. destruct Hk as [Hk|Hk]; [congruence | exact Hk].
Qed.

Lemma count_all_snoc (keys : list string) (k : string) :
  count_all (keys ++ [k]) = counter_incr k (count_all keys).
Proof. unfold count_all. now rewrite fold_left_app. Qed.

Theorem count_all_table (keys : list string) :
  count_all keys = table_of (fun x => occurrences x keys) (uniq keys).
Proof.
  induction keys as [|k keys IH] using rev_ind; [reflexivity|].
  rewrite count_all_snoc, IH, uniq_snoc.
  destruct (existsb (String.eqb k) keys) eqn:E.
  - apply existsb_eqb_In in E.
    rewrite counter_incr_present
      by (try apply NoDup_uniq; now apply in_uniq).
    apply table_of_ext. intros x _.
    rewrite occurrences_app, occurrences_cons, occurrences_nil.
    rewrite (String.eqb_sym x k). destruct (String.eqb k x); lia.
  - assert (~ In k keys) as Hk
      by (rewrite <- existsb_eqb_In; congruence).
    rewrite counter_incr_absent by (now rewrite in_uniq).
    unfold table_of. rewrite map_app. simpl. f_equal.
    + apply map_ext_in. intros x Hx. rewrite occurrences_app, occurrences_cons.
      apply (proj1 (in_uniq _ _)) in Hx.
      destruct (String.eqb x k) eqn:E'.
      * apply String.eqb_eq in E'. subst x. contradiction.
      * rewrite occurrences_nil. f_equal. lia.
    + rewrite occurrences_app, occurrences_cons, String.eqb_refl.
      assert (occurrences k keys = 0) as ->.
      { destruct (occurrences k keys) eqn:O; [reflexivity|].
        exfalso. apply Hk. apply occurrences_pos. lia. }
      reflexivity.
Qed.

(** *** Sorted lists *)

Lemma StronglySorted_weaken {A : Type} (R R' : A -> A -> Prop) (l : list A) :
  (forall a b, In a l -> In b l -> R a b -> R' a b) ->
  StronglySorted R l -> StronglySorted R' l.
Proof.
  intros H S. induction S as [|x l S IH F]; constructor.
  - apply IH. intros a b Ha Hb. apply H; now right.
  - rewrite Forall_forall in *. intros b Hb.
    apply H; [now left | now right | now apply F].
Qed.

Lemma StronglySorted_filter {A : Type} (R : A -> A -> Prop) (p : A -> bool)
  (l : list A) :
  StronglySorted R l -> StronglySorted R (filter p l).
Proof.
  induction 1 as [|x l S IH F]; simpl; [constructor|].
  destruct (p x); [constructor|]; auto.
  rewrite Forall_forall in *. intros b Hb. apply filter_In in Hb. now apply F.
Qed.

Lemma StronglySorted_map {A B : Type} (R : B -> B -> Prop) (g : A -> B)
  (l : list A) :
  StronglySorted (fun a b => R (g a) (g b)) l -> StronglySorted R (map g l).
Proof.
  induction 1 as [|x l S IH F]; simpl; constructor; [exact IH|].
  rewrite Forall_forall in *. intros b Hb. apply in_map_iff in Hb.
  destruct Hb as [a [<- Ha]]. now apply F.
Qed.

Lemma in_firstn {A : Type} (n : nat) (l : list A) (a : A) :
  In a (firstn n l) -> In a l.
Proof.
  intros H. rewrite <- (firstn_skipn n l). apply in_or_app. now left.
Qed.

Lemma in_skipn {A : Type} (n : nat) (l : list A) (a : A) :
  In a (skipn n l) -> In a l.
Proof.
  intros H. rewrite <- (firstn_skipn n l). apply in_or_app. now right.
Qed.

Lemma StronglySorted_firstn {A : Type} (R : A -> A -> Prop) (n : nat)
  (l : list A) :
  StronglySorted R l -> StronglySorted R (firstn n l).
Proof.
  intros S. revert n. induction S as [|x l S IH F]; intros [|n]; simpl;
    try constructor.
  - apply IH.
  - rewrite Forall_forall in *. intros b Hb. apply F.
    now apply (in_firstn n).
Qed.

(** In a sorted list every element of a prefix precedes every element of
    the rest. *)
Lemma StronglySorted_firstn_skipn {A : Type} (R : A -> A -> Prop) (n : nat)
  (l : list A) (a b : A) :
  StronglySorted R l -> In a (firstn n l) -> In b (skipn n l) -> R a b.
Proof.
  intros S. revert n. induction S as [|x l S IH F]; intros [|n]; simpl;
    try tauto.
  intros [<- | Ha] Hb.
  - rewrite Forall_forall in F. apply F. now apply (in_skipn n).
  - now apply (IH n).
Qed.

(** *** First occurrences *)

Lemma uniq_by_first_index (keys : list string) :
  StronglySorted (fun a b => first_index a keys < first_index b keys)
                 (uniq keys).
Proof.
  induction keys as [|k keys IH]; simpl; constructor.
  - apply StronglySorted_weaken
      with (R := fun a b => first_index a keys < first_index b keys);
      [|apply StronglySorted_filter; exact IH].
    intros a b Ha Hb H. apply filter_In in Ha, Hb.
    destruct Ha as [_ Ha], Hb as [_ Hb].
    rewrite String.eqb_sym in Ha, Hb. simpl.
    destruct (String.eqb k a), (String.eqb k b); try discriminate; lia.
  - rewrite Forall_forall. intros b Hb. apply filter_In in Hb.
    destruct Hb as [_ Hb]. rewrite String.eqb_refl.
    rewrite String.eqb_sym in Hb. destruct (String.eqb k b);
      [discriminate | lia].
Qed.

(** *** The stable sort by falling count *)

Section StableSort.

Variable keys : list string.

Let earlier (a b : string * nat) : Prop :=
  first_index (fst a) keys < first_index (fst b) keys.

Lemma ranks_before_le (a b : string * nat) :
  ranks_before keys a b -> snd b <= snd a.
Proof. unfold ranks_before. lia. Qed.

Lemma insert_desc_perm (x : string * nat) (s : counter) :
  Permutation (insert_desc x s) (x :: s).
Proof.
  induction s as [|y s IH]; simpl; [reflexivity|].
  destruct (snd y <=? snd x)%nat; [reflexivity|].
  rewrite IH. apply perm_swap.
Qed.

Lemma sort_desc_perm (c : counter) : Permutation (sort_desc c) c.
Proof.
  induction c as [|x c IH]; simpl; [reflexivity|].
  rewrite insert_desc_perm. now constructor.
Qed.

Lemma insert_desc_sorted (x : string * nat) (s : counter) :
  StronglySorted (ranks_before keys) s ->
  Forall (earlier x) s ->
  StronglySorted (ranks_before keys) (insert_desc x s).
Proof.
  induction 1 as [|y s S IH F]; simpl; intros E.
  - repeat constructor.
  - inversion E as [|y' s' Ey Es]; subst.
    destruct (snd y <=? snd x)%nat eqn:L.
    + apply Nat.leb_le in L. constructor; [now constructor|].
      assert (forall z, snd z <= snd x -> earlier x z -> ranks_before keys x z)
        as Hx.
      { intros z Hz Ez. unfold ranks_before, earlier in *. lia. }
      constructor; [now apply Hx|].
      rewrite Forall_forall in *. intros z Hz. apply Hx; [|now apply Es].
      specialize (F z Hz). apply ranks_before_le in F. lia.
    + apply Nat.leb_gt in L. constructor; [now apply IH|].
      rewrite (insert_desc_perm x s). constructor; [|exact F].
      left. exact L.
Qed.

Lemma sort_desc_sorted (c : counter) :
  StronglySorted earlier c ->
  StronglySorted (ranks_before keys) (sort_desc c).
Proof.
  induction 1 as [|x c S IH F]; simpl; [constructor|].
  apply insert_desc_sorted; [exact IH|].
  now rewrite (sort_desc_perm c).
Qed.

End StableSort.

(** *** What a counter and its top view hold *)

Lemma counter_keys (keys : list string) :
  map fst (count_all keys) = uniq keys.
Proof.
  rewrite count_all_table. unfold table_of. rewrite map_map. simpl.
  apply map_id.
Qed.

Lemma counter_length (keys : list string) :
  List.length (count_all keys) = List.length (uniq keys).
Proof. now rewrite <- counter_keys, length_map. Qed.

Lemma counter_get_table (k : string) (f : string -> nat) (l : list string) :
  counter_get k (table_of f l) = if existsb (String.eqb k) l then f k else 0.
Proof.
  induction l as [|x l IH]; simpl; [reflexivity|].
  rewrite (String.eqb_sym k x). destruct (String.eqb x k) eqn:E; simpl.
  - apply String.eqb_eq in E. now subst.
  - exact IH.
Qed.

Lemma counter_get_count_all (k : string) (keys : list string) :
  counter_get k (count_all keys) = occurrences k keys.
Proof.
  rewrite count_all_table, counter_get_table.
  destruct (existsb (String.eqb k) (uniq keys)) eqn:E; [reflexivity|].
  destruct (occurrences k keys) eqn:O; [reflexivity|].
  assert (In k keys) as Hk by (apply occurrences_pos; lia).
  apply in_uniq, existsb_eqb_In in Hk. congruence.
Qed.

Lemma counter_entries (keys : list string) (e : string * nat) :
  In e (count_all keys) -> In (fst e) keys /\ snd e = occurrences (fst e) keys.
Proof.
  rewrite count_all_table. unfold table_of. rewrite in_map_iff.
  intros [x [<- Hx]]. simpl. split; [now apply in_uniq | reflexivity].
Qed.

Lemma counter_by_first_index (keys : list string) :
  StronglySorted
    (fun a b => first_index (fst a) keys < first_index (fst b) keys)
    (count_all keys).
Proof.
  rewrite count_all_table. unfold table_of. apply StronglySorted_map. simpl.
  apply uniq_by_first_index.
Qed.

Theorem most_common_top10 (keys : list string) :
  top10_of keys (most_common 10 (count_all keys)).
Proof.
  unfold top10_of, most_common.
  pose proof (sort_desc_sorted keys _ (counter_by_first_index keys)) as S.
  pose proof (sort_desc_perm (count_all keys)) as P.
  repeat split.
  - apply firstn_le_length.
  - now apply StronglySorted_firstn.
  - rewrite Forall_forall. intros e He. apply in_firstn in He.
    apply (Permutation_in _ P), counter_entries in He.
    destruct He as [Hk ->]. split; [now apply occurrences_pos | reflexivity].
  - assert (In (k, occurrences k keys) (skipn 10 (sort_desc (count_all keys))))
      as Hs.
    { assert (In (k, occurrences k keys) (sort_desc (count_all keys))) as Hin.
      { apply (Permutation_in _ (Permutation_sym P)).
        rewrite count_all_table. unfold table_of. apply in_map_iff.
        exists k. split; [reflexivity | now apply in_uniq]. }
      rewrite <- (firstn_skipn 10) in Hin. apply in_app_or in Hin.
      destruct Hin as [Hin | Hin]; [|exact Hin].
      exfalso. apply H0. apply in_map_iff. now exists (k, occurrences k keys). }
    rewrite length_firstn.
    destruct (Nat.le_gt_cases (List.length (sort_desc (count_all keys))) 10)
      as [L | L]; [|lia].
    rewrite (skipn_all2 _ L) in Hs. destruct Hs.
  - rewrite Forall_forall. intros e He.
    apply (StronglySorted_firstn_skipn _ 10 (sort_desc (count_all keys)));
      [exact S | exact He |].
    assert (In (k, occurrences k keys) (sort_desc (count_all keys))) as Hin.
    { apply (Permutation_in _ (Permutation_sym P)).
      rewrite count_all_table. unfold table_of. apply in_map_iff.
      exists k. split; [reflexivity | now apply in_uniq]. }
    rewrite <- (firstn_skipn 10) in Hin. apply in_app_or in Hin.
    destruct Hin as [Hin | Hin]; [|exact Hin].
    exfalso. apply H0. apply in_map_iff. now exists (k, occurrences k keys).
Qed.

(** *** The four loops as counters over their key sequences *)

Lemma fold_incr_filter {A : Type} (f : A -> string) (p : string -> bool)
  (xs : list A) (c : counter) :
  fold_left (fun c x => if p (f x) then counter_incr (f x) c else c) xs c =
  fold_left (fun c key => counter_incr key c) (filter p (map f xs)) c.
Proof.
  revert c. induction xs as [|x xs IH]; intros c; simpl; [reflexivity|].
  rewrite IH. now destruct (p (f x)).
Qed.

Lemma company_counter_keys (jobs : list job) :
  company_counter jobs = count_all (company_keys jobs).
Proof.
  unfold company_counter, company_keys, count_all.
  apply (fold_incr_filter (fun job => get_or (company job) "Unknown")
           (fun k => negb (String.eqb k "Company not found"))).
Qed.

Lemma location_counter_keys (jobs : list job) :
  location_counter jobs = count_all (location_keys jobs).
Proof.
  unfold location_counter, location_keys, count_all.
  apply (fold_incr_filter (fun job => get_or (location job) "Unknown")
           (fun k => negb (String.eqb k "Location not found"))).
Qed.

Lemma time_counter_keys (jobs : list job) :
  time_counter jobs = count_all (time_keys jobs).
Proof.
  unfold time_counter, time_keys, count_all.
  apply (fold_incr_filter (fun job => get_or (posted_time job) "Unknown")
           (fun k => negb (String.eqb k ""))).
Qed.

Lemma count_keywords_filter (title : string) (c : counter) :
  count_keywords title c =
  fold_left (fun c key => counter_incr key c)
            (filter (fun keyword => str_in keyword title) keywords) c.
Proof.
  unfold count_keywords.
  rewrite <- (map_id keywords) at 2.
  apply (fold_incr_filter (fun k : string => k)
           (fun keyword => str_in keyword title)).
Qed.

(** The guard on the title is redundant: the two texts it excludes hold
    no keyword of the vocabulary. *)
Lemma keyword_counter_keys (jobs : list job) :
  keyword_counter jobs = count_all (keyword_keys jobs).
Proof.
  unfold keyword_counter, keyword_keys, count_all.
  generalize (@nil (string * nat)).
  induction jobs as [|job jobs IH]; intros c; [reflexivity|].
  cbn [fold_left flat_map].
  rewrite fold_left_app, <- count_keywords_filter, IH. f_equal.
  destruct (String.eqb (lower (get_or (title job) "")) "") eqn:E1.
  - apply String.eqb_eq in E1. rewrite E1. reflexivity.
  - destruct (String.eqb (lower (get_or (title job) "")) "title not found")
      eqn:E2; [|reflexivity].
    apply String.eqb_eq in E2. rewrite E2. reflexivity.
Qed.

Import Scenarios.

(** *** Counting through a filter *)

Lemma occurrences_filter (p : string -> bool) (k : string)
  (keys : list string) :
  occurrences k (filter p keys) = if p k then occurrences k keys else 0.
Proof.
  induction keys as [|x keys IH]; simpl.
  - rewrite occurrences_nil. now destruct (p k).
  - destruct (p x) eqn:Px.
    + rewrite !occurrences_cons, IH. destruct (String.eqb k x) eqn:E.
      * apply String.eqb_eq in E. subst x. now rewrite Px.
      * now destruct (p k).
    + rewrite occurrences_cons, IH. destruct (String.eqb k x) eqn:E.
      * apply String.eqb_eq in E. subst x. now rewrite Px.
      * now destruct (p k).
Qed.

Lemma counts_field_company (jobs : list job) :
  counts_field company "Company not found" jobs (company_counter jobs).
Proof.
  intros key. rewrite company_counter_keys, counter_get_count_all.
  unfold company_keys. rewrite occurrences_filter.
  now destruct (String.eqb key "Company not found").
Qed.

Lemma counts_field_location (jobs : list job) :
  counts_field location "Location not found" jobs (location_counter jobs).
Proof.
  intros key. rewrite location_counter_keys, counter_get_count_all.
  unfold location_keys. rewrite occurrences_filter.
  now destruct (String.eqb key "Location not found").
Qed.

Lemma counts_field_time (jobs : list job) :
  counts_field posted_time "" jobs (time_counter jobs).
Proof.
  intros key. rewrite time_counter_keys, counter_get_count_all.
  unfold time_keys. rewrite occurrences_filter.
  now destruct (String.eqb key "").
Qed.

Lemma occurrences_flat_map {A : Type} (k : string) (f : A -> list string)
  (xs : list A) :
  occurrences k (flat_map f xs) =
  list_sum (map (fun x => occurrences k (f x)) xs).
Proof.
  induction xs as [|x xs IH]; simpl; [reflexivity|].
  now rewrite occurrences_app, IH.
Qed.

Lemma keyword_occurs_once (k title : string) :
  occurrences k (filter (fun keyword => str_in keyword title) keywords) =
  if existsb (String.eqb k) keywords && str_in k title then 1 else 0.
Proof.
  rewrite occurrences_filter.
  destruct (str_in k title); [|now rewrite andb_false_r].
  rewrite andb_true_r. unfold occurrences, keywords. simpl.
  repeat match goal with
         | |- context [String.eqb k ?w] => destruct (String.eqb_spec k w);
                                            [subst k; reflexivity|]
         end.
  reflexivity.
Qed.

Lemma keyword_counter_counts (keyword : string) (jobs : list job) :
  counter_get keyword (keyword_counter jobs) =
  if existsb (String.eqb keyword) keywords
  then titles_containing keyword jobs else 0.
Proof.
  rewrite keyword_counter_keys, counter_get_count_all.
  unfold keyword_keys, titles_containing. rewrite occurrences_flat_map.
  induction jobs as [|j jobs IH].
  - now destruct (existsb _ _).
  - rewrite map_cons.
    change (list_sum (?a :: ?l)) with (a + list_sum l).
    rewrite IH, keyword_occurs_once. cbn [filter].
    destruct (existsb (String.eqb keyword) keywords);
      destruct (str_in keyword (lower (get_or (title j) "")));
      reflexivity.
Qed.

End CounterFacts.

(* ================================================================= *)
(** ** The listing extractor *)

Module ListingFacts.
Import PyStr Dom JobReporter Scenarios PyStrFacts.

Lemma any_in_false (words : list string) (s : string) :
  any_in words s = false <-> Forall (fun w => ~ contains w s) words.
Proof.
  unfold any_in. induction words as [|w words IH]; simpl.
  - split; [constructor | reflexivity].
  - rewrite orb_false_iff, IH, str_in_not_contains. split.
    + intros [H1 H2]. now constructor.
    + intros H. inversion H. now split.
Qed.

Lemma company_ok_valid (t : string) :
  company_ok t = true <-> company_valid t.
Proof.
  unfold company_ok, company_valid.
  rewrite !andb_true_iff, !negb_true_iff, String.eqb_neq, any_in_false.
  rewrite !Nat.ltb_lt. split.
  - tauto.
  - intros [H1 [H2 H3]]. repeat split; try assumption.
    destruct t; [congruence | simpl; lia].
Qed.

Lemma first_accepted_ok (ok : string -> bool) (c : card)
  (selectors : list string) (t : string) :
  first_accepted ok c selectors = Some t -> ok t = true.
Proof.
  induction selectors as [|s rest IH]; simpl; [discriminate|].
  destruct (candidate c s) as [t'|]; [|exact IH].
  destruct (ok t') eqn:E; [|exact IH]. now intros [= <-].
Qed.

(** The company loop keeps the first candidate that passes the test. *)
Lemma first_accepted_company (c : card) (selectors : list string) :
  match first_accepted company_ok c selectors with
  | Some t =>
      exists pre s post,
        selectors = (pre ++ s :: post)%list /\
        Forall (company_rejected c) pre /\
        candidate c s = Some t /\ company_valid t
  | None => Forall (company_rejected c) selectors
  end.
Proof.
  induction selectors as [|s rest IH]; simpl; [constructor|].
  assert (candidate c s = None \/
          (exists t, candidate c s = Some t /\ company_ok t = false) ->
          company_rejected c s) as Hrej.
  { intros [H | [t [H E]]] t' Ht'.
    - congruence.
    - rewrite H in Ht'. injection Ht' as <-.
      rewrite <- company_ok_valid. congruence. }
  destruct (candidate c s) as [t|] eqn:C.
  - destruct (company_ok t) eqn:E.
    + exists [], s, rest.
      split; [reflexivity|]. split; [constructor|]. split; [exact C|].
      now apply company_ok_valid.
    + assert (company_rejected c s) as R by (apply Hrej; right; now exists t).
      destruct (first_accepted company_ok c rest) as [t'|].
      * destruct IH as [pre [s' [post [-> [F [C' V]]]]]].
        exists (s :: pre), s', post.
        split; [reflexivity|]. split; [now constructor|]. now split.
      * now constructor.
  - assert (company_rejected c s) as R by (apply Hrej; now left).
    destruct (first_accepted company_ok c rest) as [t'|].
    + destruct IH as [pre [s' [post [-> [F [C' V]]]]]].
      exists (s :: pre), s', post.
      split; [reflexivity|]. split; [now constructor|]. now split.
    + now constructor.
Qed.

Lemma title_scan_nonempty (c : card) (selectors : list string)
  (t : string) (link : option (option string)) :
  title_scan c selectors = Some (t, link) -> t <> "".
Proof.
  induction selectors as [|s rest IH]; simpl; [discriminate|].
  destruct (card_find c s) as [e|]; [|exact IH].
  destruct (text e) as [raw|]; [|exact IH].
  destruct (String.eqb (normalize raw) "") eqn:E; [exact IH|].
  intros [= <- _]. now apply String.eqb_neq.
Qed.

Lemma company_ok_nonempty (t : string) : company_ok t = true -> t <> "".
Proof. intros H. apply company_ok_valid in H. apply H. Qed.

Lemma location_ok_nonempty (t : string) : location_ok t = true -> t <> "".
Proof.
  unfold location_ok. rewrite andb_true_iff, negb_true_iff, String.eqb_neq.
  tauto.
Qed.

(** The three keys the extractor always sets, and the stamp. *)

Ltac fields :=
  cbn [title job_link company location posted_time description extracted_at
       empty_job].

Ltac settle_falsy :=
  repeat match goal with
         | |- context [falsy ?v] => destruct (falsy v); fields
         end.

Lemma extract_card_title (now : string) (c : card) :
  title (extract_card now c) =
  Some match title_scan c title_selectors with
       | Some (t, _) => t
       | None => TITLE_NOT_FOUND
       end.
Proof.
  unfold extract_card. cbv zeta.
  destruct (title_scan c title_selectors) as [[t link]|] eqn:T; fields.
  - apply title_scan_nonempty, String.eqb_neq in T.
    cbn [falsy]. rewrite T. fields. settle_falsy; reflexivity.
  - cbn [falsy]. fields. settle_falsy; reflexivity.
Qed.

Lemma extract_card_company (now : string) (c : card) :
  company (extract_card now c) =
  Some match first_accepted company_ok c company_selectors with
       | Some t => t
       | None => COMPANY_NOT_FOUND
       end.
Proof.
  unfold extract_card. cbv zeta.
  destruct (first_accepted company_ok c company_selectors) as [t|] eqn:F.
  - apply first_accepted_ok, company_ok_nonempty, String.eqb_neq in F.
    destruct (title_scan c title_selectors) as [[t' link]|]; fields;
      destruct (falsy _); fields; cbn [falsy]; rewrite F; fields;
      settle_falsy; reflexivity.
  - destruct (title_scan c title_selectors) as [[t' link]|]; fields;
      destruct (falsy _); fields; cbn [falsy]; fields;
      settle_falsy; reflexivity.
Qed.

Lemma extract_card_location (now : string) (c : card) :
  location (extract_card now c) =
  Some match first_accepted location_ok c location_selectors with
       | Some t => t
       | None => LOCATION_NOT_FOUND
       end.
Proof.
  unfold extract_card. cbv zeta.
  destruct (first_accepted location_ok c location_selectors) as [t|] eqn:F.
  - apply first_accepted_ok, location_ok_nonempty, String.eqb_neq in F.
    fields. cbn [falsy]. rewrite F. reflexivity.
  - reflexivity.
Qed.

Lemma extract_card_stamp (now : string) (c : card) :
  extracted_at (extract_card now c) = Some now.
Proof. reflexivity. Qed.

Lemma extract_from_length (clock : nat -> string) (i : nat)
  (cards : list card) :
  List.length (extract_from clock i cards) = List.length cards.
Proof.
  revert i. induction cards as [|c cards IH]; intros i; simpl;
    [reflexivity | now rewrite IH].
Qed.

Lemma extract_from_nth (clock : nat -> string) (i n : nat)
  (cards : list card) :
  nth_error (extract_from clock i cards) n =
  option_map (extract_card (clock (i + n))) (nth_error cards n).
Proof.
  revert i n. induction cards as [|c cards IH]; intros i [|n]; simpl;
    try reflexivity.
  - now rewrite Nat.add_0_r.
  - rewrite IH. now rewrite Nat.add_succ_r.
Qed.

Lemma slice_to_nonneg {A : Type} (xs : list A) (n : Z) :
  (0 <= n)%Z -> slice_to xs n = firstn (Z.to_nat n) xs.
Proof.
  intros H. unfold slice_to. apply Z.leb_le in H. now rewrite H.
Qed.

Lemma nth_error_firstn_some {A : Type} (n i : nat) (xs : list A) (x : A) :
  nth_error (firstn n xs) i = Some x -> nth_error xs i = Some x.
Proof.
  revert n i. induction xs as [|y xs IH]; intros [|n] [|i]; simpl;
    try discriminate; try tauto.
  apply IH.
Qed.

End ListingFacts.

(* ================================================================= *)
(** ** More on the string operations *)

Module StripFacts.
Import PyStr PyStrFacts.

Lemma rstrip_idem (s : string) : rstrip (rstrip s) = rstrip s.
Proof.
  induction s as [|c s IH]; simpl; [reflexivity|].
  destruct (rstrip s) as [|d r] eqn:E.
  - destruct (is_space c) eqn:Sp; simpl; [reflexivity | now rewrite Sp].
  - simpl in *. now rewrite IH.
Qed.

(** A text that is empty or begins with a character that is no space. *)
Definition no_lead (s : string) : Prop :=
  match s with
  | EmptyString => True
  | String c _ => is_space c = false
  end.

Lemma lstrip_no_lead (s : string) : no_lead (lstrip s).
Proof.
  induction s as [|c s IH]; simpl; [exact I|].
  destruct (is_space c) eqn:E; [exact IH | exact E].
Qed.

Lemma lstrip_fixed (s : string) : no_lead s -> lstrip s = s.
Proof. destruct s as [|c s]; simpl; [reflexivity|]. now intros ->. Qed.

Lemma rstrip_no_lead (s : string) : no_lead s -> no_lead (rstrip s).
Proof.
  destruct s as [|c s]; simpl; [trivial|]. intros H.
  destruct (rstrip s); [now rewrite H | exact H].
Qed.

Lemma strip_no_lead (s : string) : no_lead (strip s).
Proof. apply rstrip_no_lead, lstrip_no_lead. Qed.

(** Stripping twice is stripping once. *)
Lemma strip_idem (s : string) : strip (strip s) = strip s.
Proof.
  unfold strip at 1. rewrite (lstrip_fixed _ (strip_no_lead s)).
  apply rstrip_idem.
Qed.

Lemma all_chars_filter (p : ascii -> bool) (s : string) :
  all_chars p (filter_chars p s) = true.
Proof.
  induction s as [|c s IH]; simpl; [reflexivity|].
  destruct (p c) eqn:E; simpl; [now rewrite E | exact IH].
Qed.

Lemma all_chars_rstrip (p : ascii -> bool) (s : string) :
  all_chars p s = true -> all_chars p (rstrip s) = true.
Proof.
  induction s as [|c s IH]; simpl; [trivial|].
  rewrite andb_true_iff. intros [Hc Hs]. specialize (IH Hs).
  destruct (rstrip s) as [|d r].
  - destruct (is_space c); simpl; [reflexivity | now rewrite Hc].
  - cbn [all_chars] in *. now rewrite Hc.
Qed.

Lemma filter_chars_fixed (p : ascii -> bool) (s : string) :
  all_chars p s = true -> filter_chars p s = s.
Proof.
  induction s as [|c s IH]; simpl; [reflexivity|].
  rewrite andb_true_iff. intros [-> Hs]. now rewrite IH.
Qed.

Lemma all_chars_app (p : ascii -> bool) (s t : string) :
  all_chars p (s ++ t) = all_chars p s && all_chars p t.
Proof.
  induction s as [|c s IH]; simpl; [reflexivity|].
  now rewrite IH, andb_assoc.
Qed.

Lemma all_chars_excludes (p : ascii -> bool) (c : ascii) (s : string) :
  all_chars p s = true -> p c = false -> char_in c s = false.
Proof.
  intros Hs Hc. induction s as [|d s IH]; simpl; [reflexivity|].
  simpl in Hs. apply andb_true_iff in Hs. destruct Hs as [Hd Hs].
  rewrite (IH Hs), orb_false_r. apply Ascii.eqb_neq. congruence.
Qed.

End StripFacts.

(* ================================================================= *)
(** ** The other resolvers and scans of job_page_scraper.py *)

Module ScraperScanFacts.
Import PyStr Dom JobPageScraper Scenarios PyStrFacts StripFacts
       JobPageScraperFacts.

Lemma probe_html_some (doc : document) (selector h : string) :
  probe_html doc selector = Some h <-> yields_html doc selector h /\ h <> "".
Proof.
  unfold probe_html, yields_html. split.
  - destruct (wait_presence doc selector) as [e| |] eqn:W; try discriminate.
    destruct (inner_html e) as [[raw|]|] eqn:T; try discriminate.
    destruct (String.eqb raw ""); try discriminate.
    destruct (String.eqb (strip raw) "") eqn:E; try discriminate.
    intros [= <-]. apply String.eqb_neq in E. split; [|exact E].
    now exists e, raw.
  - intros [[e [raw [W [T ->]]]] Hne]. rewrite W, T.
    destruct (String.eqb_spec raw "") as [->|_]; [now elim Hne|].
    apply String.eqb_neq in Hne. now rewrite Hne.
Qed.

Lemma probe_html_none (doc : document) (selector : string) :
  probe_html doc selector = None <-> html_non_match doc selector.
Proof.
  split.
  - intros HN h Hy. destruct (string_dec h "") as [|Hne]; [assumption|].
    assert (probe_html doc selector = Some h) as HS
      by (apply probe_html_some; now split).
    congruence.
  - intros HN. destruct (probe_html doc selector) as [h|] eqn:P; [|reflexivity].
    apply probe_html_some in P. destruct P as [Hy Hne].
    now apply HN in Hy.
Qed.

Lemma html_with_fallbacks_spec (doc : document) (selectors : list string) :
  match html_with_fallbacks doc selectors with
  | Some h =>
      h <> "" /\
      exists pre s post,
        selectors = (pre ++ s :: post)%list /\
        Forall (html_non_match doc) pre /\ yields_html doc s h
  | None => Forall (html_non_match doc) selectors
  end.
Proof.
  induction selectors as [|s rest IH]; simpl.
  - constructor.
  - destruct (probe_html doc s) as [h|] eqn:P.
    + apply probe_html_some in P. destruct P as [Hy Hne].
      split; [exact Hne|]. now exists [], s, rest.
    + apply probe_html_none in P.
      destruct (html_with_fallbacks doc rest) as [h|].
      * destruct IH as [Hne [pre [s' [post [-> [Hpre Hy]]]]]].
        split; [exact Hne|]. exists (s :: pre), s', post.
        split; [reflexivity|]. split; [now constructor | exact Hy].
      * now constructor.
Qed.

Lemma html_with_fallbacks_nonempty (doc : document) (selectors : list string)
  (h : string) :
  html_with_fallbacks doc selectors = Some h -> h <> "".
Proof.
  intros H. pose proof (html_with_fallbacks_spec doc selectors) as S.
  rewrite H in S. apply S.
Qed.

Lemma stripped_texts_clean (elements : list element) (ts : list string) :
  stripped_texts elements = Ok ts ->
  Forall (fun t => t <> "" /\ strip t = t) ts.
Proof.
  revert ts. induction elements as [|e els IH]; simpl; intros ts.
  - intros [= <-]. constructor.
  - destruct (text e) as [raw|]; [|discriminate].
    destruct (stripped_texts els) as [ts'|]; [|discriminate].
    specialize (IH ts' eq_refl).
    destruct (String.eqb (strip raw) "") eqn:E; intros [= <-]; [exact IH|].
    constructor; [|exact IH].
    split; [now apply String.eqb_neq | apply strip_idem].
Qed.

Lemma multiple_texts_spec (doc : document) (selectors : list string) :
  let found := multiple_texts doc selectors in
  (found = [] /\ Forall (yields_no_text doc) selectors) \/
  (found <> [] /\
   exists pre s post,
     selectors = (pre ++ s :: post)%list /\
     Forall (yields_no_text doc) pre /\ texts_of doc s found).
Proof.
  cbv zeta. induction selectors as [|s rest IH]; cbn [multiple_texts].
  - left. split; [reflexivity | constructor].
  - assert (yields_no_text doc s ->
            (multiple_texts doc rest = [] /\
             Forall (yields_no_text doc) (s :: rest)) \/
            (multiple_texts doc rest <> [] /\
             exists pre s' post,
               s :: rest = (pre ++ s' :: post)%list /\
               Forall (yields_no_text doc) pre /\
               texts_of doc s' (multiple_texts doc rest))) as Skip.
    { intros N. destruct IH as [[E F] | [E [pre [s' [post [-> [F T]]]]]]].
      - left. split; [exact E | now constructor].
      - right. split; [exact E|]. exists (s :: pre), s', post.
        split; [reflexivity|]. split; [now constructor | exact T]. }
    destruct (find_elements doc s) as [[|e els]|] eqn:FE.
    + apply Skip. intros ts [els' [F' S']]. rewrite FE in F'.
      injection F' as <-. simpl in S'. congruence.
    + destruct (stripped_texts (e :: els)) as [[|t ts]|] eqn:ST.
      * apply Skip. intros ts' [els' [F' S']]. rewrite FE in F'.
        injection F' as <-. congruence.
      * right. split; [discriminate|]. exists [], s, rest.
        split; [reflexivity|]. split; [constructor|].
        now exists (e :: els).
      * apply Skip. intros ts' [els' [F' S']]. rewrite FE in F'.
        injection F' as <-. congruence.
    + apply Skip. intros ts [els' [F' _]]. congruence.
Qed.

Lemma multiple_texts_clean (doc : document) (selectors : list string) :
  Forall (fun t => t <> "" /\ strip t = t) (multiple_texts doc selectors).
Proof.
  destruct (multiple_texts_spec doc selectors)
    as [[-> _] | [_ [pre [s [post [_ [_ [els [_ S]]]]]]]]]; [constructor|].
  now apply stripped_texts_clean in S.
Qed.


(** *** Job type: the first match; seniority: the last one *)

Lemma last_cons_default {A : Type} (x d : A) (l : list A) :
  last (x :: l) d = last l x.
Proof.
  revert x d. induction l as [|y l IH]; intros x d; [reflexivity|].
  change (last (x :: y :: l) d) with (last (y :: l) d).
  now rewrite (IH y d), (IH y x).
Qed.

Lemma job_type_in_first (elements : list element) (raws : list string) :
  map text elements = map Ok raws ->
  job_type_in elements =
  Ok (hd_error (matching_texts job_type_keywords raws)).
Proof.
  revert raws. induction elements as [|e els IH]; intros [|raw raws];
    try discriminate; [reflexivity|].
  cbn [map]. intros [= T M]. cbn [job_type_in]. rewrite T.
  unfold matching_texts. cbn [map filter].
  destruct (any_in job_type_keywords (lower (strip raw))); [reflexivity|].
  now apply IH.
Qed.

Lemma seniority_in_last (elements : list element) (raws : list string)
  (current : option string) :
  map text elements = map Ok raws ->
  seniority_in elements current =
  (last (map Some (matching_texts seniority_keywords raws)) current, false).
Proof.
  revert raws current.
  induction elements as [|e els IH]; intros [|raw raws] current;
    try discriminate; [reflexivity|].
  cbn [map]. intros [= T M]. cbn [seniority_in]. rewrite T.
  unfold matching_texts. cbn [map filter].
  destruct (any_in seniority_keywords (lower (strip raw))).
  - rewrite (IH raws _ M). cbn [map]. now rewrite last_cons_default.
  - now apply IH.
Qed.

Lemma job_type_in_word (elements : list element) (t : string) :
  job_type_in elements = Ok (Some t) ->
  any_in job_type_keywords (lower t) = true.
Proof.
  induction elements as [|e els IH]; cbn [job_type_in]; [discriminate|].
  destruct (text e) as [raw|]; [|discriminate].
  destruct (any_in job_type_keywords (lower (strip raw))) eqn:E;
    [|exact IH].
  now intros [= <-].
Qed.

Lemma job_type_scan_word (doc : document) (selectors : list string)
  (t : string) :
  job_type_scan doc selectors = Some t ->
  any_in job_type_keywords (lower t) = true.
Proof.
  induction selectors as [|s rest IH]; simpl; [discriminate|].
  destruct (find_elements doc s) as [els|]; [|exact IH].
  destruct (job_type_in els) as [[t'|]|] eqn:J; try exact IH.
  intros [= <-]. now apply job_type_in_word in J.
Qed.

(** What the seniority scan keeps true of its running value. *)
Definition seniority_word (v : option string) : Prop :=
  match v with
  | Some t => any_in seniority_keywords (lower t) = true
  | None => True
  end.

Lemma seniority_in_word (elements : list element) (current : option string) :
  seniority_word current ->
  seniority_word (fst (seniority_in elements current)).
Proof.
  revert current. induction elements as [|e els IH]; intros current H;
    cbn [seniority_in]; [exact H|].
  destruct (text e) as [raw|]; [|exact H].
  destruct (any_in seniority_keywords (lower (strip raw))) eqn:E;
    apply IH; [exact E | exact H].
Qed.

Lemma seniority_scan_word (doc : document) (selectors : list string)
  (current : option string) :
  seniority_word current ->
  seniority_word (seniority_scan doc selectors current).
Proof.
  revert current. induction selectors as [|s rest IH]; intros current H;
    simpl; [exact H|].
  destruct (find_elements doc s) as [els|]; [|now apply IH].
  pose proof (seniority_in_word els current H) as W.
  destruct (seniority_in els current) as [[level|] [|]]; simpl in W.
  - now apply IH.
  - exact W.
  - now apply IH.
  - now apply IH.
Qed.

End ScraperScanFacts.

(* ================================================================= *)
(** ** Whitespace normalisation *)

Module NormalizeFacts.
Import PyStr PyStrFacts StripFacts JobReporter Scenarios.

Definition ink (c : ascii) : bool := negb (is_space c).

(** A word: a non-empty run of characters none of which is whitespace. *)
Definition word (w : string) : Prop :=
  w <> "" /\ all_chars ink w = true.

Lemma word_cons (c : ascii) (w : string) :
  is_space c = false -> all_chars ink w = true -> word (String c w).
Proof.
  intros Hc Hw. split; [discriminate|]. simpl. unfold ink at 1.
  now rewrite Hc, Hw.
Qed.

Lemma split_cons (c : ascii) (s : string) :
  split (String c s) =
  if is_space c then split s
  else match s with
       | EmptyString => [String c EmptyString]
       | String c' _ =>
           if is_space c' then String c EmptyString :: split s
           else match split s with
                | w :: ws => String c w :: ws
                | [] => [String c EmptyString]
                end
       end.
Proof. reflexivity. Qed.

Lemma split_words (s : string) : Forall word (split s).
Proof.
  induction s as [|c s IH]; [constructor|]. rewrite split_cons.
  destruct (is_space c) eqn:Hc; [exact IH|].
  destruct s as [|c' s'].
  - constructor; [|constructor]. now apply word_cons.
  - destruct (is_space c') eqn:Hc'.
    + constructor; [now apply word_cons | exact IH].
    + destruct (split (String c' s')) as [|w ws].
      * constructor; [|constructor]. now apply word_cons.
      * inversion IH as [|w' ws' Hw Hws]; subst.
        constructor; [|exact Hws]. apply word_cons; [exact Hc | apply Hw].
Qed.

Lemma split_word (w : string) : word w -> split w = [w].
Proof.
  intros [Hne Hall]. induction w as [|c w IH]; [congruence|].
  cbn [all_chars] in Hall. apply andb_true_iff in Hall.
  destruct Hall as [Hc Hw]. unfold ink in Hc. apply negb_true_iff in Hc.
  rewrite split_cons, Hc. destruct w as [|c' w']; [reflexivity|].
  assert (is_space c' = false) as Hc'.
  { cbn [all_chars] in Hw. apply andb_true_iff in Hw.
    destruct Hw as [H _]. unfold ink in H. now apply negb_true_iff in H. }
  rewrite Hc'. rewrite IH; [reflexivity | discriminate | exact Hw].
Qed.

Lemma split_word_then_space (w rest : string) (sp : ascii) :
  word w -> is_space sp = true ->
  split (w ++ String sp rest) = w :: split rest.
Proof.
  intros [Hne Hall] Hsp. induction w as [|c w IH]; [congruence|].
  cbn [all_chars] in Hall. apply andb_true_iff in Hall.
  destruct Hall as [Hc Hw]. unfold ink in Hc. apply negb_true_iff in Hc.
  change (String c w ++ String sp rest) with (String c (w ++ String sp rest)).
  rewrite split_cons, Hc. destruct w as [|c' w'].
  - cbn [append]. rewrite Hsp. now rewrite split_cons, Hsp.
  - assert (is_space c' = false) as Hc'.
    { cbn [all_chars] in Hw. apply andb_true_iff in Hw.
      destruct Hw as [H _]. unfold ink in H. now apply negb_true_iff in H. }
    change (String c' w' ++ String sp rest)
      with (String c' (w' ++ String sp rest)) in *.
    lazy match. rewrite Hc'. rewrite IH; [reflexivity | discriminate | exact Hw].
Qed.

Lemma split_join (ws : list string) :
  Forall word ws -> split (join " " ws) = ws.
Proof.
  induction 1 as [|w ws Hw Hws IH]; [reflexivity|].
  destruct ws as [|w2 ws'].
  - cbn [join]. now apply split_word.
  - change (join " " (w :: w2 :: ws'))
      with (w ++ String " "%char (join " " (w2 :: ws'))).
    rewrite split_word_then_space; [now rewrite IH | exact Hw | reflexivity].
Qed.

Lemma rstrip_ink (w : string) : all_chars ink w = true -> rstrip w = w.
Proof.
  induction w as [|c w IH]; [reflexivity|]. cbn [all_chars rstrip].
  rewrite andb_true_iff. intros [Hc Hw]. rewrite (IH Hw).
  unfold ink in Hc. apply negb_true_iff in Hc.
  destruct w; [now rewrite Hc | reflexivity].
Qed.

Lemma rstrip_app_fixed (x y : string) :
  y <> "" -> rstrip y = y -> rstrip (x ++ y) = x ++ y.
Proof.
  intros Hne Hy. induction x as [|c x IH]; [exact Hy|].
  change (String c x ++ y) with (String c (x ++ y)). cbn [rstrip].
  rewrite IH. destruct (x ++ y) eqn:E; [|reflexivity].
  destruct x; [simpl in E; congruence | discriminate].
Qed.

Lemma join_words_nonempty (w : string) (ws : list string) :
  word w -> join " " (w :: ws) <> "".
Proof.
  intros [Hne _]. destruct ws; cbn [join]; destruct w; try congruence;
    discriminate.
Qed.

Lemma rstrip_join (ws : list string) :
  Forall word ws -> rstrip (join " " ws) = join " " ws.
Proof.
  induction 1 as [|w ws Hw Hws IH]; [reflexivity|].
  destruct ws as [|w2 ws'].
  - cbn [join]. apply rstrip_ink, Hw.
  - change (join " " (w :: w2 :: ws'))
      with (w ++ (" " ++ join " " (w2 :: ws'))).
    apply rstrip_app_fixed; [discriminate|].
    apply (rstrip_app_fixed " "); [|exact IH].
    inversion Hws; subst. now apply join_words_nonempty.
Qed.

Lemma join_no_lead (ws : list string) :
  Forall word ws -> no_lead (join " " ws).
Proof.
  intros H. destruct H as [|w ws [Hne Hall] Hws]; [exact I|].
  destruct w as [|c w]; [congruence|].
  cbn [all_chars] in Hall. apply andb_true_iff in Hall.
  destruct Hall as [Hc _]. unfold ink in Hc. apply negb_true_iff in Hc.
  destruct ws; exact Hc.
Qed.

Lemma strip_join (ws : list string) :
  Forall word ws -> strip (join " " ws) = join " " ws.
Proof.
  intros H. unfold strip. rewrite (lstrip_fixed _ (join_no_lead ws H)).
  now apply rstrip_join.
Qed.

Lemma all_chars_weaken (p q : ascii -> bool) (s : string) :
  (forall c, p c = true -> q c = true) ->
  all_chars p s = true -> all_chars q s = true.
Proof.
  intros Hpq. induction s as [|c s IH]; [reflexivity|]. cbn [all_chars].
  rewrite !andb_true_iff. intros [Hc Hs]. split; [now apply Hpq | now apply IH].
Qed.

Lemma join_plain_spaces (ws : list string) :
  Forall word ws -> all_chars plain_space_or_ink (join " " ws) = true.
Proof.
  assert (forall w, word w -> all_chars plain_space_or_ink w = true) as Hw.
  { intros w [_ H]. revert H. apply all_chars_weaken.
    intros c Hc. unfold plain_space_or_ink. unfold ink in Hc.
    now rewrite Hc. }
  induction 1 as [|w ws H Hws IH]; [reflexivity|].
  destruct ws as [|w2 ws'].
  - cbn [join]. now apply Hw.
  - change (join " " (w :: w2 :: ws'))
      with (w ++ (" " ++ join " " (w2 :: ws'))).
    rewrite !all_chars_app, (Hw w H), IH. reflexivity.
Qed.

End NormalizeFacts.

(* ================================================================= *)
(** ** More on the listing extractor *)

Module ListingScanFacts.
Import PyStr Dom JobReporter Scenarios PyStrFacts ListingFacts.

Lemma first_accepted_spec (ok : string -> bool) (valid : string -> Prop)
  (c : card) (selectors : list string) :
  (forall t, ok t = true <-> valid t) ->
  match first_accepted ok c selectors with
  | Some t =>
      exists pre s post,
        selectors = (pre ++ s :: post)%list /\
        Forall (fun s' => forall t', candidate c s' = Some t' -> ~ valid t')
               pre /\
        candidate c s = Some t /\ valid t
  | None =>
      Forall (fun s' => forall t', candidate c s' = Some t' -> ~ valid t')
             selectors
  end.
Proof.
  intros Hok. induction selectors as [|s rest IH]; cbn [first_accepted];
    [constructor|].
  destruct (candidate c s) as [t|] eqn:C.
  - destruct (ok t) eqn:E.
    + exists [], s, rest.
      split; [reflexivity|]. split; [constructor|]. split; [exact C|].
      now apply Hok.
    + assert (forall t', Some t = Some t' -> ~ valid t') as R.
      { intros t' [= <-]. rewrite <- Hok. congruence. }
      destruct (first_accepted ok c rest) as [t'|].
      * destruct IH as [pre [s' [post [-> [F [C' V]]]]]].
        exists (s :: pre), s', post.
        split; [reflexivity|]. split; [|now split].
        constructor; [now rewrite C | exact F].
      * constructor; [now rewrite C | exact IH].
  - assert (forall t', @None string = Some t' -> ~ valid t') as R
      by discriminate.
    destruct (first_accepted ok c rest) as [t'|].
    + destruct IH as [pre [s' [post [-> [F [C' V]]]]]].
      exists (s :: pre), s', post.
      split; [reflexivity|]. split; [|now split].
      constructor; [now rewrite C | exact F].
    + constructor; [now rewrite C | exact IH].
Qed.

Lemma location_ok_valid (t : string) :
  location_ok t = true <-> location_valid t.
Proof.
  unfold location_ok, location_valid.
  now rewrite andb_true_iff, !negb_true_iff, String.eqb_neq, any_in_false.
Qed.

Lemma extract_card_job_link (now : string) (c : card) :
  job_link (extract_card now c) =
  match title_scan c title_selectors with
  | Some (_, link) => link
  | None => None
  end.
Proof.
  unfold extract_card. cbv zeta.
  destruct (title_scan c title_selectors) as [[t link]|] eqn:T; fields.
  - apply title_scan_nonempty, String.eqb_neq in T.
    cbn [falsy]. rewrite T. fields. settle_falsy; reflexivity.
  - cbn [falsy]. fields. settle_falsy; reflexivity.
Qed.

Lemma title_scan_spec (c : card) (selectors : list string) :
  match title_scan c selectors with
  | Some (t, _) =>
      t <> "" /\
      exists pre s post,
        selectors = (pre ++ s :: post)%list /\
        Forall (fun s' => candidate c s' = None \/ candidate c s' = Some "")
               pre /\
        candidate c s = Some t
  | None =>
      Forall (fun s' => candidate c s' = None \/ candidate c s' = Some "")
             selectors
  end.
Proof.
  induction selectors as [|s rest IH]; cbn [title_scan]; [constructor|].
  unfold candidate at 1 3 4.
  assert (candidate c s = None \/ candidate c s = Some "" ->
          match title_scan c rest with
          | Some (t, _) =>
              t <> "" /\
              exists pre s' post,
                s :: rest = (pre ++ s' :: post)%list /\
                Forall (fun s' => candidate c s' = None \/
                                  candidate c s' = Some "") pre /\
                candidate c s' = Some t
          | None =>
              Forall (fun s' => candidate c s' = None \/
                                candidate c s' = Some "") (s :: rest)
          end) as Skip.
  { intros N. destruct (title_scan c rest) as [[t l]|].
    - destruct IH as [Hne [pre [s' [post [-> [F C]]]]]].
      split; [exact Hne|]. exists (s :: pre), s', post.
      split; [reflexivity|]. split; [now constructor | exact C].
    - now constructor. }
  unfold candidate in Skip at 1 2.
  destruct (card_find c s) as [e|] eqn:CF; [|apply Skip; now left].
  destruct (text e) as [raw|] eqn:T; [|apply Skip; now left].
  destruct (String.eqb_spec (normalize raw) "") as [E|E].
  - apply Skip. right. now rewrite E.
  - split; [exact E|]. exists [], s, rest.
    split; [reflexivity|]. split; [constructor|].
    unfold candidate. now rewrite CF, T.
Qed.

Lemma substring_length_le (n : nat) (s : string) :
  String.length (substring 0 n s) <= n.
Proof.
  revert s. induction n as [|n IH]; intros [|c s]; simpl; try lia.
  specialize (IH s). lia.
Qed.

Lemma desc_scan_shape (c : card) (selectors : list string) (d : string) :
  desc_scan c selectors = Some d ->
  exists body, d = body ++ "..." /\ String.length body <= 200.
Proof.
  induction selectors as [|s rest IH]; cbn [desc_scan]; [discriminate|].
  destruct (card_find c s) as [e|]; [|exact IH].
  destruct (text e) as [raw|]; [|exact IH].
  intros [= <-]. eexists. split; [reflexivity|]. apply substring_length_le.
Qed.

Lemma find_cards_spec (page : listing_page) (selectors : list string) :
  match find_cards page selectors with
  | Ok [] => Forall (no_cards page) selectors
  | Ok (first :: others) =>
      exists pre s post,
        selectors = (pre ++ s :: post)%list /\
        Forall (no_cards page) pre /\
        wait_all page s = Located (first :: others)
  | Raised =>
      exists pre s post,
        selectors = (pre ++ s :: post)%list /\
        Forall (no_cards page) pre /\ wait_all page s = Failed
  end.
Proof.
  induction selectors as [|s rest IH]; cbn [find_cards]; [constructor|].
  assert (no_cards page s ->
          match find_cards page rest with
          | Ok [] => Forall (no_cards page) (s :: rest)
          | Ok (first :: others) =>
              exists pre s' post,
                s :: rest = (pre ++ s' :: post)%list /\
                Forall (no_cards page) pre /\
                wait_all page s' = Located (first :: others)
          | Raised =>
              exists pre s' post,
                s :: rest = (pre ++ s' :: post)%list /\
                Forall (no_cards page) pre /\ wait_all page s' = Failed
          end) as Skip.
  { intros N. destruct (find_cards page rest) as [[|f o]|].
    - now constructor.
    - destruct IH as [pre [s' [post [-> [F W]]]]]. exists (s :: pre), s', post.
      split; [reflexivity|]. split; [now constructor | exact W].
    - destruct IH as [pre [s' [post [-> [F W]]]]]. exists (s :: pre), s', post.
      split; [reflexivity|]. split; [now constructor | exact W]. }
  destruct (wait_all page s) as [[|f o]| |] eqn:W.
  - apply Skip. now right.
  - exists [], s, rest. split; [reflexivity|]. split; [constructor | exact W].
  - apply Skip. now left.
  - exists [], s, rest. split; [reflexivity|]. split; [constructor | exact W].
Qed.

End ListingScanFacts.

(* ================================================================= *)
(** ** More on the aggregator *)

Module AggregateFacts.
Import PyStr JobReporter Scenarios CounterFacts.




Lemma counter_sum_incr (k : string) (c : counter) :
  list_sum (map snd (counter_incr k c)) = S (list_sum (map snd c)).
Proof.
  induction c as [|[k' n] c IH]; cbn [counter_incr]; [reflexivity|].
  destruct (String.eqb k' k); cbn [map snd list_sum fold_right] in *.
  - reflexivity.
  - fold (list_sum (map snd (counter_incr k c))).
    fold (list_sum (map snd c)). rewrite IH. lia.
Qed.

Lemma counter_sum (keys : list string) :
  list_sum (map snd (count_all keys)) = List.length keys.
Proof.
  induction keys as [|k keys IH] using rev_ind; [reflexivity|].
  rewrite count_all_snoc, counter_sum_incr, IH, length_app. simpl. lia.
Qed.

Lemma uniq_length_le (keys : list string) :
  List.length (uniq keys) <= List.length keys.
Proof.
  apply NoDup_incl_length; [apply NoDup_uniq|].
  intros x. apply in_uniq.
Qed.

Lemma filter_split_length (x : string) (l : list string) :
  List.length (filter (fun k => negb (String.eqb k x)) l) + occurrences x l
  = List.length l.
Proof.
  unfold occurrences. induction l as [|y l IH]; [reflexivity|]. simpl.
  rewrite (String.eqb_sym x y). destruct (String.eqb y x); simpl; lia.
Qed.

Lemma sort_desc_length (c : counter) :
  List.length (sort_desc c) = List.length c.
Proof. apply Permutation_length, sort_desc_perm. Qed.

Lemma most_common_all (n : nat) (c : counter) :
  List.length c <= n -> Permutation (most_common n c) c.
Proof.
  intros H. unfold most_common.
  rewrite firstn_all2 by (now rewrite sort_desc_length).
  apply sort_desc_perm.
Qed.

Lemma list_sum_perm (l l' : list nat) :
  Permutation l l' -> list_sum l = list_sum l'.
Proof.
  induction 1; simpl; try lia.
Qed.

End AggregateFacts.

(* ================================================================= *)
(** ** The steps of [run] before the page is read *)

Module RunFacts.
Import PyStr Dom JobPageScraper Scenarios PyStrFacts StripFacts
       JobPageScraperFacts ScraperScanFacts.

Lemma wait_details_pane_raised (s : session) (selectors : list string) :
  wait_details_pane s selectors = Raised <->
  exists pre selector post,
    selectors = (pre ++ selector :: post)%list /\
    Forall (fun x => wait_visible s x = TimedOut) pre /\
    wait_visible s selector = Failed.
Proof.
  induction selectors as [|x rest IH]; cbn [wait_details_pane].
  - split; [discriminate|]. intros [pre [sel [post [E _]]]].
    destruct pre; discriminate.
  - destruct (wait_visible s x) as [u| |] eqn:W.
    + split; [discriminate|]. intros [pre [sel [post [E [F V]]]]].
      destruct pre as [|y pre]; injection E as -> ->; [congruence|].
      inversion F; congruence.
    + rewrite IH. split.
      * intros [pre [sel [post [-> [F V]]]]]. exists (x :: pre), sel, post.
        split; [reflexivity|]. split; [now constructor | exact V].
      * intros [pre [sel [post [E [F V]]]]].
        destruct pre as [|y pre]; injection E as -> ->; [congruence|].
        inversion F; subst. now exists pre, sel, post.
    + split; [intros _|reflexivity]. exists [], x, rest.
      split; [reflexivity|]. split; [constructor | exact W].
Qed.

Lemma scroll_raised (s : session) :
  _scroll_and_wait s = Raised <->
  execute_script s "window.scrollTo(0, document.body.scrollHeight);" = Raised
  \/ execute_script s "window.scrollTo(0, 0);" = Raised.
Proof.
  unfold _scroll_and_wait.
  destruct (execute_script s "window.scrollTo(0, document.body.scrollHeight);")
    as [u|]; [|tauto].
  split; [now right|]. intros [H|H]; [discriminate | exact H].
Qed.

(** [run] raises exactly when one of its unguarded steps does. *)
Lemma run_raised (s : session) (job_url now : string) :
  raises_while_loading s job_url <-> run s job_url now = Raised.
Proof.
  unfold raises_while_loading, run. cbv zeta.
  destruct (get s job_url) as [u|] eqn:G; [|split; [reflexivity | now left]].
  rewrite <- scroll_raised.
  destruct (String.eqb_spec (_detect_page_type job_url) "search") as [E|E].
  - rewrite E. change (selectors_of "search") with SEARCH_PAGE_SELECTORS.
    pose proof (wait_details_pane_raised s
                  (selectors_get SEARCH_PAGE_SELECTORS "details_pane")) as W.
    destruct (wait_details_pane s
                (selectors_get SEARCH_PAGE_SELECTORS "details_pane"))
      as [b|].
    + destruct (_scroll_and_wait s) as [v|].
      * split; [|discriminate].
        intros [H | [[_ H] | H]]; [discriminate | | discriminate].
        apply W in H. discriminate.
      * split; [reflexivity|]. intros _. right. now right.
    + split; [reflexivity|]. intros _. right. left.
      split; [reflexivity|]. now apply W.
  - destruct (_scroll_and_wait s) as [v|].
    + split; [|discriminate].
      intros [H | [[H _] | H]]; [discriminate | contradiction | discriminate].
    + split; [reflexivity|]. intros _. right. now right.
Qed.

(** When none of them does, [run] returns what reading the page gives. *)
Lemma run_loaded (s : session) (job_url now : string) :
  ~ raises_while_loading s job_url ->
  run s job_url now = Ok (extract_job_details (page s) job_url now).
Proof.
  intros H. pose proof (run_raised s job_url now) as R.
  unfold run in *. cbv zeta in *.
  destruct (get s job_url) as [u|]; [|tauto].
  destruct (if String.eqb (_detect_page_type job_url) "search"
            then wait_details_pane s
                   (selectors_get (selectors_of (_detect_page_type job_url))
                                  "details_pane")
            else Ok false) as [b|]; [|tauto].
  destruct (_scroll_and_wait s) as [v|]; [reflexivity | tauto].
Qed.

(** Whatever [run] returns was read from the page. *)
Lemma run_returns (s : session) (job_url now : string)
  (data : option job_data) :
  run s job_url now = Ok data ->
  data = extract_job_details (page s) job_url now.
Proof.
  intros H. rewrite run_loaded in H; [now injection H as <-|].
  intros R. apply (run_raised s job_url now) in R. congruence.
Qed.

(** *** The optional texts of [_extract_additional_info] *)







End RunFacts.

(* ================================================================= *)
(** ** The posted-time and description loops *)

Module SnippetFacts.
Import PyStr Dom JobReporter Scenarios ListingFacts ListingScanFacts.

Lemma candidate_none (c : card) (selector : string) :
  candidate c selector = None <-> forall raw, ~ readable c selector raw.
Proof.
  unfold candidate, readable. split.
  - intros H raw [e [F T]]. rewrite F, T in H. discriminate.
  - intros H. destruct (card_find c selector) as [e|]; [|reflexivity].
    destruct (text e) as [raw|] eqn:T; [|reflexivity].
    exfalso. apply (H raw). now exists e.
Qed.

(** Both loops take the first element that can be found and read. *)
Lemma first_readable (f : string -> string) (scan : card -> list string -> option string)
  (c : card) (selectors : list string) :
  (forall sels, scan c sels =
     match sels with
     | [] => None
     | s :: rest =>
         match card_find c s with
         | Ok e => match text e with
                   | Ok raw => Some (f raw)
                   | Raised => scan c rest
                   end
         | Raised => scan c rest
         end
     end) ->
  match scan c selectors with
  | Some v =>
      exists pre s post raw,
        selectors = (pre ++ s :: post)%list /\
        Forall (fun s' => candidate c s' = None) pre /\
        readable c s raw /\ v = f raw
  | None => Forall (fun s' => candidate c s' = None) selectors
  end.
Proof.
  intros Step. induction selectors as [|s rest IH]; rewrite Step;
    [constructor|].
  assert (candidate c s = None ->
          match scan c rest with
          | Some v =>
              exists pre s' post raw,
                s :: rest = (pre ++ s' :: post)%list /\
                Forall (fun s' => candidate c s' = None) pre /\
                readable c s' raw /\ v = f raw
          | None => Forall (fun s' => candidate c s' = None) (s :: rest)
          end) as Skip.
  { intros N. destruct (scan c rest) as [v|].
    - destruct IH as [pre [s' [post [raw [-> [F [R V]]]]]]].
      exists (s :: pre), s', post, raw.
      split; [reflexivity|]. split; [now constructor | now split].
    - now constructor. }
  unfold candidate in Skip at 1.
  destruct (card_find c s) as [e|] eqn:CF; [|now apply Skip].
  destruct (text e) as [raw|] eqn:T; [|now apply Skip].
  exists [], s, rest, raw. split; [reflexivity|]. split; [constructor|].
  split; [now exists e | reflexivity].
Qed.

Lemma time_scan_spec (c : card) (selectors : list string) :
  match time_scan c selectors with
  | Some t =>
      exists pre s post raw,
        selectors = (pre ++ s :: post)%list /\
        Forall (fun s' => candidate c s' = None) pre /\
        readable c s raw /\ t = strip raw
  | None => Forall (fun s' => candidate c s' = None) selectors
  end.
Proof.
  apply (first_readable strip time_scan). now intros [|s rest].
Qed.

Lemma desc_scan_spec (c : card) (selectors : list string) :
  match desc_scan c selectors with
  | Some d =>
      exists pre s post raw,
        selectors = (pre ++ s :: post)%list /\
        Forall (fun s' => candidate c s' = None) pre /\
        readable c s raw /\ d = substring 0 200 (strip raw) ++ "..."
  | None => Forall (fun s' => candidate c s' = None) selectors
  end.
Proof.
  apply (first_readable (fun raw => substring 0 200 (strip raw) ++ "...")
           desc_scan).
  now intros [|s rest].
Qed.

Lemma append_length (a b : string) :
  String.length (a ++ b) = String.length a + String.length b.
Proof. induction a as [|x a IH]; simpl; [reflexivity | now rewrite IH]. Qed.

(** [s[:n]] is a prefix of [s]. *)
Lemma substring_prefix (n : nat) (s : string) :
  exists rest, s = substring 0 n s ++ rest.
Proof.
  revert s. induction n as [|n IH]; intros [|x s]; simpl.
  - now exists "".
  - now exists (String x s).
  - now exists "".
  - destruct (IH s) as [rest E]. exists rest. now rewrite <- E.
Qed.

Lemma substring_all (n : nat) (s : string) :
  String.length s <= n -> substring 0 n s = s.
Proof.
  revert s. induction n as [|n IH]; intros [|x s]; simpl; try reflexivity.
  - lia.
  - intros H. rewrite IH; [reflexivity | lia].
Qed.

Lemma substring_full_length (n : nat) (s : string) :
  n <= String.length s -> String.length (substring 0 n s) = n.
Proof.
  revert s. induction n as [|n IH]; intros [|x s]; simpl; try reflexivity;
    try lia.
  intros H. rewrite IH; [reflexivity | lia].
Qed.

End SnippetFacts.

(* ================================================================= *)
(** ** A table that leaves one value out *)

Module TableFacts.
Import PyStr JobReporter Scenarios CounterFacts.

Lemma filtered_table (x : string) (values : list string) :
  let keys := filter (fun k => negb (String.eqb k x)) values in
  count_all keys = map (fun k => (k, occurrences k values)) (uniq keys) /\
  (forall k, In k (map fst (count_all keys)) <-> k <> x /\ In k values) /\
  NoDup (map fst (count_all keys)) /\
  Forall (fun e => 0 < snd e) (count_all keys) /\
  List.length (count_all keys) = List.length (uniq keys).
Proof.
  cbv zeta. set (keys := filter (fun k => negb (String.eqb k x)) values).
  assert (forall k, In k keys <-> k <> x /\ In k values) as HIn.
  { intros k. unfold keys. rewrite filter_In, negb_true_iff, String.eqb_neq.
    tauto. }
  assert (count_all keys
          = map (fun k => (k, occurrences k values)) (uniq keys)) as HT.
  { rewrite count_all_table. unfold table_of. apply map_ext_in.
    intros k Hk. apply in_uniq, HIn in Hk. destruct Hk as [Hne _].
    unfold keys. rewrite occurrences_filter.
    apply String.eqb_neq in Hne. now rewrite Hne. }
  split; [exact HT|]. split; [|split; [|split]].
  - intros k. now rewrite counter_keys, in_uniq.
  - rewrite counter_keys. apply NoDup_uniq.
  - rewrite HT. apply Forall_forall. intros e He. apply in_map_iff in He.
    destruct He as [k [<- Hk]]. cbn [snd].
    apply in_uniq, HIn in Hk. now apply occurrences_pos.
  - apply counter_length.
Qed.

End TableFacts.

(* ================================================================= *)
(** ** The properties of the specification *)

Import PyStr Dom.

Section ScraperClaims.
Import JobPageScraper PyStrFacts JobPageScraperFacts Scenarios.

(** A located element whose text is blank does not stop the search. *)
Lemma blank_text_is_non_match (doc : document) (selector raw : string)
  (element : Dom.element) :
  wait_presence doc selector = Located element ->
  text element = Ok raw ->
  all_space raw = true ->
  non_match doc selector.
Proof.
  intros W T B t [e [raw' [W' [T' ->]]]].
  rewrite W in W'. injection W' as <-. rewrite T in T'. injection T' as <-.
  now apply strip_empty.
Qed.

Example resolver_skips_empty_element :
  text_with_fallbacks example_page [".a"; ".b"] = Some "Acme".
Proof. reflexivity. Qed.

(** C1.  For every selector catalog, key and page, the field resolver
    returns the stripped text of the first selector, in list order, whose
    located element has non-empty stripped text: every selector before it
    is a non-match (nothing located, or a text that is empty or
    whitespace only).  It returns none exactly when every selector of the
    list is a non-match. *)
Theorem C1_resolver_first_non_empty_text
  (table : selector_table) (doc : document) (selector_key : string) :
  let selectors := selectors_get table selector_key in
  match _get_element_text_with_fallbacks table doc selector_key with
  | Some t =>
      t <> "" /\
      exists pre s post,
        selectors = (pre ++ s :: post)%list /\
        Forall (non_match doc) pre /\ yields doc s t
  | None => Forall (non_match doc) selectors
  end.
Proof.
  unfold _get_element_text_with_fallbacks. cbv zeta.
  apply text_with_fallbacks_spec.
Qed.




(** C3, as stated, fails: on the address of the feed, which holds neither
    marker, the detector answers "search", not an unknown type. *)
Lemma C3_other_address_is_not_unknown : ~ unknown_for_other_addresses.
Proof.
  intros H.
  specialize (H "https://www.linkedin.com/feed/").
  assert (page_type_of_tag
            (_detect_page_type "https://www.linkedin.com/feed/") = Search)
    as E by reflexivity.
  rewrite H in E; [discriminate| |];
    apply str_in_not_contains; reflexivity.
Qed.

(** C3, amended.  The page type depends on the address only.  An address
    containing "/jobs/search/" gives Search; one containing "/jobs/view/"
    and not the search marker gives View; any other address gives Search
    as well (the detector has no third answer), and whenever the answer
    is Search the search catalog is used, otherwise the view catalog. *)
Theorem C3_page_type_of_address (job_url : string) :
  (contains "/jobs/search/" job_url ->
     page_type_of_tag (_detect_page_type job_url) = Search /\
     selectors_of (_detect_page_type job_url) = SEARCH_PAGE_SELECTORS) /\
  (~ contains "/jobs/search/" job_url -> contains "/jobs/view/" job_url ->
     page_type_of_tag (_detect_page_type job_url) = View /\
     selectors_of (_detect_page_type job_url) = VIEW_PAGE_SELECTORS) /\
  (~ contains "/jobs/search/" job_url -> ~ contains "/jobs/view/" job_url ->
     _detect_page_type job_url = "search" /\
     page_type_of_tag (_detect_page_type job_url) = Search /\
     selectors_of (_detect_page_type job_url) = SEARCH_PAGE_SELECTORS) /\
  page_type_of_tag (_detect_page_type job_url) <> Unknown.
Proof.
  repeat split.
  - apply str_in_contains in H. now rewrite (detect_search_marker _ H).
  - apply str_in_contains in H. now rewrite (detect_search_marker _ H).
  - apply str_in_not_contains in H. apply str_in_contains in H0.
    now rewrite (detect_view_marker _ H H0).
  - apply str_in_not_contains in H. apply str_in_contains in H0.
    now rewrite (detect_view_marker _ H H0).
  - apply str_in_not_contains in H. apply str_in_not_contains in H0.
    apply (detect_no_marker _ H H0).
  - apply str_in_not_contains in H. apply str_in_not_contains in H0.
    now rewrite (detect_no_marker _ H H0).
  - apply str_in_not_contains in H. apply str_in_not_contains in H0.
    now rewrite (detect_no_marker _ H H0).
  - destruct (detect_two_valued job_url) as [-> | ->]; discriminate.
Qed.

(** C3 at three addresses: a search address, a view address, and one with
    neither marker. *)
Lemma C3_page_type_of_address_witness :
  page_type_of_tag
    (_detect_page_type "https://www.linkedin.com/jobs/search/?keywords=ML")
    = Search /\
  page_type_of_tag
    (_detect_page_type "https://www.linkedin.com/jobs/view/4255281290")
    = View /\
  _detect_page_type "https://www.linkedin.com/feed/" = "search".
Proof.
  split; [|split].
  - apply (proj1 (C3_page_type_of_address
                    "https://www.linkedin.com/jobs/search/?keywords=ML")).
    apply str_in_contains. reflexivity.
  - apply (proj1 (proj2 (C3_page_type_of_address
                    "https://www.linkedin.com/jobs/view/4255281290"))).
    + apply str_in_not_contains. reflexivity.
    + apply str_in_contains. reflexivity.
  - apply (proj1 (proj2 (proj2 (C3_page_type_of_address
                    "https://www.linkedin.com/feed/")))).
    + apply str_in_not_contains. reflexivity.
    + apply str_in_not_contains. reflexivity.
Defined.

End ScraperClaims.

Section ReporterClaims.
Import JobReporter Scenarios PyStrFacts CounterFacts ListingFacts.

Example company_with_job_word_rejected :
  company_ok "Senior Engineer Team" = false.
Proof. reflexivity. Qed.

Example plain_company_accepted : company_ok "Acme Corp" = true.
Proof. reflexivity. Qed.

(** C4, as stated, fails at the bound: a candidate of exactly 100
    characters does not exceed 100, is not empty and holds no job-title
    word, yet the extractor turns it down and writes the sentinel. *)
Lemma C4_hundred_characters_turned_down :
  company_valid_as_stated hundred_x /\
  candidate (company_only_card hundred_x) ".artdeco-entity-lockup__subtitle"
    = Some hundred_x /\
  company (extract_card "2024-01-01 00:00:00" (company_only_card hundred_x))
    = Some "Company not found".
Proof.
  split; [|split; vm_compute; reflexivity].
  split; [discriminate|]. split; [vm_compute; lia|].
  apply any_in_false. vm_compute. reflexivity.
Qed.

(** C4, amended.  The company of a record is the first candidate, in
    selector order, that is not empty, has fewer than 100 characters and,
    lower-cased, contains none of "analyst", "engineer", "manager",
    "developer", "specialist", "intern", "associate"; every candidate
    before it fails one of these checks.  When no candidate passes, the
    company is "Company not found".  "Senior Engineer Team" fails the
    checks and "Acme Corp" passes them. *)
Theorem C4_company_first_valid_candidate (now : string) (c : card) :
  ((exists pre s post t,
      company_selectors = (pre ++ s :: post)%list /\
      Forall (company_rejected c) pre /\
      candidate c s = Some t /\ company_valid t /\
      company (extract_card now c) = Some t)
   \/
   (Forall (company_rejected c) company_selectors /\
    company (extract_card now c) = Some "Company not found")) /\
  ~ company_valid "Senior Engineer Team" /\
  company_valid "Acme Corp".
Proof.
  split; [|split].
  - rewrite extract_card_company.
    pose proof (first_accepted_company c company_selectors) as H.
    destruct (first_accepted company_ok c company_selectors) as [t|].
    + left. destruct H as [pre [s [post [E [F [C V]]]]]].
      exists pre, s, post, t. repeat split; try assumption; apply V.
    + right. split; [exact H | reflexivity].
  - rewrite <- company_ok_valid. discriminate.
  - apply company_ok_valid. reflexivity.
Qed.

(** C5, as stated, fails for the posting time: a record extracted from a
    card without a time element has no posting time, and the aggregator
    counts it, under the key "Unknown". *)
Lemma C5_missing_posting_time_is_counted :
  posted_time
    (extract_card "2024-01-01 00:00:00" (company_only_card "Acme Corp"))
    = None /\
  lookup "posting_times"
    (analyze_job_data "2024-01-01 00:00:05"
       [extract_card "2024-01-01 00:00:00" (company_only_card "Acme Corp")])
    = Some (VTable [("Unknown", 1)]).
Proof. split; vm_compute; reflexivity. Qed.

(** C5, amended.  The keys of the full company table are exactly the
    distinct companies of the records (read with the default "Unknown")
    other than "Company not found", each once, in the order first met;
    "Company not found" is no key of it, and the count of every key is
    the number of records with that company, so a record whose company
    is "Company not found" adds nothing to the table nor to
    unique_companies.  Likewise the location table with "Location not
    found".  The posting-time table has no such sentinel: it leaves out
    empty posting times only, and a record without a posting time counts
    under "Unknown".  The views in the result are the top 10 of the full
    tables, and unique_companies and unique_locations are the numbers of
    keys of the full company and location tables. *)
Theorem C5_tables_exclude_sentinels (now : string) (j : job)
  (rest : list job) :
  let jobs := j :: rest in
  let result := analyze_job_data now jobs in
  let keys_of (field : job -> option string) (excluded : string) :=
    uniq (filter (fun k => negb (String.eqb k excluded))
                 (field_values field jobs)) in
  let full_table (field : job -> option string) (excluded : string) :=
    map (fun k => (k, occurrences k (field_values field jobs)))
        (keys_of field excluded) in
  company_counter jobs = full_table company "Company not found" /\
  location_counter jobs = full_table location "Location not found" /\
  time_counter jobs = full_table posted_time "" /\
  (forall k,
     In k (map fst (company_counter jobs)) <->
     k <> "Company not found" /\ In k (field_values company jobs)) /\
  (forall k,
     In k (map fst (location_counter jobs)) <->
     k <> "Location not found" /\ In k (field_values location jobs)) /\
  (forall k,
     In k (map fst (time_counter jobs)) <->
     k <> "" /\ In k (field_values posted_time jobs)) /\
  counts_field company "Company not found" jobs (company_counter jobs) /\
  counts_field location "Location not found" jobs (location_counter jobs) /\
  counts_field posted_time "" jobs (time_counter jobs) /\
  NoDup (map fst (company_counter jobs)) /\
  NoDup (map fst (location_counter jobs)) /\
  Forall (fun e => 0 < snd e) (company_counter jobs) /\
  Forall (fun e => 0 < snd e) (location_counter jobs) /\
  lookup "companies" result
    = Some (VTable (most_common 10 (company_counter jobs))) /\
  lookup "locations" result
    = Some (VTable (most_common 10 (location_counter jobs))) /\
  lookup "posting_times" result
    = Some (VTable (most_common 10 (time_counter jobs))) /\
  lookup "unique_companies" result
    = Some (VInt (List.length (keys_of company "Company not found"))) /\
  lookup "unique_locations" result
    = Some (VInt (List.length (keys_of location "Location not found"))).
Proof.
  cbv zeta. set (jobs := j :: rest).
  pose proof (TableFacts.filtered_table "Company not found"
                (field_values company jobs)) as [C1 [C2 [C3 [C4 C5]]]].
  pose proof (TableFacts.filtered_table "Location not found"
                (field_values location jobs)) as [L1 [L2 [L3 [L4 L5]]]].
  pose proof (TableFacts.filtered_table ""
                (field_values posted_time jobs)) as [T1 [T2 _]].
  change (filter (fun k => negb (String.eqb k "Company not found"))
                 (field_values company jobs)) with (company_keys jobs) in *.
  change (filter (fun k => negb (String.eqb k "Location not found"))
                 (field_values location jobs)) with (location_keys jobs) in *.
  change (filter (fun k => negb (String.eqb k ""))
                 (field_values posted_time jobs)) with (time_keys jobs) in *.
  rewrite <- company_counter_keys in C1, C2, C3, C4, C5.
  rewrite <- location_counter_keys in L1, L2, L3, L4, L5.
  rewrite <- time_counter_keys in T1, T2.
  split; [exact C1|]. split; [exact L1|]. split; [exact T1|].
  split; [exact C2|]. split; [exact L2|]. split; [exact T2|].
  split; [apply counts_field_company|].
  split; [apply counts_field_location|].
  split; [apply counts_field_time|].
  split; [exact C3|]. split; [exact L3|].
  split; [exact C4|]. split; [exact L4|].
  split; [reflexivity|]. split; [reflexivity|]. split; [reflexivity|].
  split.
  - rewrite <- C5. reflexivity.
  - rewrite <- L5. reflexivity.
Qed.

(** C6.  For every non-empty record sequence, each of the four views of
    the result (companies, locations, posting times, title keywords) is a
    top-10 view of the keys its loop counts: at most 10 entries, each
    with its number of occurrences, in falling order of count, equal
    counts in the order in which the keys are first met in the input,
    and no key left out counts more than a key kept.  For companies
    A, B, A, C, B, A the view of companies is A:3, B:2, C:1 in that
    order. *)
Theorem C6_views_are_top10 (now : string) (j : job) (rest : list job) :
  let jobs := j :: rest in
  let result := analyze_job_data now jobs in
  (exists companies locations times words,
     lookup "companies" result = Some (VTable companies) /\
     top10_of (company_keys jobs) companies /\
     lookup "locations" result = Some (VTable locations) /\
     top10_of (location_keys jobs) locations /\
     lookup "posting_times" result = Some (VTable times) /\
     top10_of (time_keys jobs) times /\
     lookup "title_keywords" result = Some (VTable words) /\
     top10_of (keyword_keys jobs) words) /\
  lookup "companies" (analyze_job_data now tie_jobs)
    = Some (VTable [("A", 3); ("B", 2); ("C", 1)]).
Proof.
  cbv zeta. split; [|reflexivity].
  exists (most_common 10 (company_counter (j :: rest))),
         (most_common 10 (location_counter (j :: rest))),
         (most_common 10 (time_counter (j :: rest))),
         (most_common 10 (keyword_counter (j :: rest))).
  split; [reflexivity|]. split.
  { rewrite company_counter_keys. apply most_common_top10. }
  split; [reflexivity|]. split.
  { rewrite location_counter_keys. apply most_common_top10. }
  split; [reflexivity|]. split.
  { rewrite time_counter_keys. apply most_common_top10. }
  split; [reflexivity|].
  rewrite keyword_counter_keys. apply most_common_top10.
Qed.

(** C7, as stated, fails on its scenario: "engineer" and "analyst" belong
    to the vocabulary, so the three titles give engineer:2, senior:1,
    analyst:1, junior:1 and not senior:1, junior:1 alone. *)
Lemma C7_scenario_counts_engineer_and_analyst :
  lookup "title_keywords" (analyze_job_data "2024-01-01 00:00:00" scenario_jobs)
    = Some (VTable [("engineer", 2); ("senior", 1); ("analyst", 1);
                    ("junior", 1)]) /\
  counter_get "engineer" (keyword_counter scenario_jobs) = 2 /\
  counter_get "analyst" (keyword_counter scenario_jobs) = 1 /\
  counter_get "engineer" [("senior", 1); ("junior", 1)] = 0.
Proof. repeat split. Qed.

(** C7, amended.  The vocabulary is the ten words senior, junior,
    manager, engineer, developer, specialist, lead, principal, director,
    analyst.  For every record sequence the keyword table counts, for
    each word of the vocabulary, the records whose lower-cased title
    contains it (so a title counts once for each word it contains), and
    nothing for any other word.  For the titles "Senior ML Engineer",
    "ML Engineer", "Junior Data Analyst" at companies "Acme", "Acme",
    "Beta" the result has title keywords engineer:2, senior:1, analyst:1,
    junior:1, companies Acme:2, Beta:1 and 2 unique companies. *)
Theorem C7_keyword_counts (now : string) (jobs : list job) :
  Permutation keywords stated_vocabulary /\
  (forall keyword,
     counter_get keyword (keyword_counter jobs) =
     if existsb (String.eqb keyword) stated_vocabulary
     then titles_containing keyword jobs else 0) /\
  lookup "title_keywords" (analyze_job_data now scenario_jobs)
    = Some (VTable [("engineer", 2); ("senior", 1); ("analyst", 1);
                    ("junior", 1)]) /\
  lookup "companies" (analyze_job_data now scenario_jobs)
    = Some (VTable [("Acme", 2); ("Beta", 1)]) /\
  lookup "unique_companies" (analyze_job_data now scenario_jobs)
    = Some (VInt 2).
Proof.
  assert (Permutation keywords stated_vocabulary) as P.
  { unfold keywords, stated_vocabulary.
    change ("analyst" ::
            ["senior"; "junior"; "manager"; "engineer"; "developer";
             "specialist"; "lead"; "principal"; "director"])
      with (["analyst"] ++
            ["senior"; "junior"; "manager"; "engineer"; "developer";
             "specialist"; "lead"; "principal"; "director"])%list.
    apply Permutation_app_comm. }
  split; [exact P|]. split; [|repeat split].
  intros keyword. rewrite keyword_counter_counts.
  replace (existsb (String.eqb keyword) stated_vocabulary)
    with (existsb (String.eqb keyword) keywords); [reflexivity|].
  apply eq_true_iff_eq. rewrite !existsb_eqb_In.
  split; apply Permutation_in; [exact P | now apply Permutation_sym].
Qed.

(** C8, as stated, fails: the result records the time of the run, so two
    runs on the same records at different times differ. *)
Lemma C8_result_depends_on_the_clock :
  analyze_job_data "2024-01-01 00:00:00" scenario_jobs <>
  analyze_job_data "2024-01-01 00:00:01" scenario_jobs.
Proof. vm_compute. discriminate. Qed.

(** C8, amended.  Two runs of the aggregator on the same record sequence
    agree on every key of the result other than extraction_date, which
    holds the reading of the clock at the run; apart from that reading
    the result depends on the records only. *)
Theorem C8_same_records_same_statistics
  (now1 now2 key : string) (jobs : list job) :
  key <> "extraction_date" ->
  lookup key (analyze_job_data now1 jobs) =
  lookup key (analyze_job_data now2 jobs).
Proof.
  intros H. destruct jobs as [|j rest]; [reflexivity|].
  unfold analyze_job_data. cbn [lookup].
  destruct (String.eqb "total_jobs" key); [reflexivity|].
  destruct (String.eqb_spec "extraction_date" key) as [E|_];
    [congruence | reflexivity].
Qed.

Lemma C8_same_records_same_statistics_witness :
  lookup "companies" (analyze_job_data "2024-01-01 00:00:00" scenario_jobs) =
  lookup "companies" (analyze_job_data "2024-01-01 00:00:01" scenario_jobs).
Proof.
  apply (C8_same_records_same_statistics
           "2024-01-01 00:00:00" "2024-01-01 00:00:01" "companies"
           scenario_jobs).
  discriminate.
Defined.

(** C9.  On the empty record sequence the aggregator returns the empty
    dictionary: no key of the statistics is present, in particular there
    is no total_jobs entry holding 0. *)
Theorem C9_empty_input_empty_result (now key : string) :
  analyze_job_data now [] = [] /\
  lookup key (analyze_job_data now []) = None /\
  lookup "total_jobs" (analyze_job_data now []) <> Some (VInt 0).
Proof. repeat split. discriminate. Qed.

(** C10, as stated, fails for a negative [max_jobs]: with three cards
    and [max_jobs] = -1 the slice drops the last card only, and two
    records are returned, which is more than -1. *)
Lemma C10_negative_bound_is_exceeded :
  (List.length
     (extract_job_listings (page_of [bare_card; bare_card; bare_card])
                           (-1)%Z (fun _ => "2024-01-01 00:00:00")) = 2) /\
  ~ ((Z.of_nat
        (List.length
           (extract_job_listings (page_of [bare_card; bare_card; bare_card])
                                 (-1)%Z (fun _ => "2024-01-01 00:00:00")))
      <= -1)%Z).
Proof. split; [reflexivity|]. vm_compute. intros H. now apply H. Qed.

(** C10, amended.  When [max_jobs] is not negative, the listing extractor
    returns at most [max_jobs] records.  Whatever [max_jobs] is, the
    record at position [i] is the one
    extracted from the card at position [i]; every record holds a
    non-empty title, company and location and a time stamp, where the
    title, company and location are the resolved text or else "Title not
    found", "Company not found", "Location not found"; and a record may
    lack both the posted_time and the description key. *)
Theorem C10_listing_records (page : listing_page) (max_jobs : Z)
  (clock : nat -> string) :
  let jobs := extract_job_listings page max_jobs clock in
  ((0 <= max_jobs)%Z -> (Z.of_nat (List.length jobs) <= max_jobs)%Z) /\
  Forall has_required_keys jobs /\
  (forall i j,
     nth_error jobs i = Some j ->
     exists cards c,
       find_cards page job_card_selectors = Ok cards /\
       nth_error cards i = Some c /\
       j = extract_card (clock i) c) /\
  (forall now c,
     title (extract_card now c) =
       Some match title_scan c title_selectors with
            | Some (t, _) => t
            | None => "Title not found"
            end /\
     company (extract_card now c) =
       Some match first_accepted company_ok c company_selectors with
            | Some t => t
            | None => "Company not found"
            end /\
     location (extract_card now c) =
       Some match first_accepted location_ok c location_selectors with
            | Some t => t
            | None => "Location not found"
            end /\
     extracted_at (extract_card now c) = Some now) /\
  (posted_time (extract_card (clock 0) bare_card) = None /\
   description (extract_card (clock 0) bare_card) = None).
Proof.
  cbv zeta.
  assert (forall now c, has_required_keys (extract_card now c)) as Hkeys.
  { intros now c. unfold has_required_keys.
    rewrite extract_card_title, extract_card_company, extract_card_location,
      extract_card_stamp.
    split; [|split; [|split]].
    - eexists. split; [reflexivity|].
      destruct (title_scan c title_selectors) as [[t l]|] eqn:T.
      + now apply title_scan_nonempty in T.
      + discriminate.
    - eexists. split; [reflexivity|].
      destruct (first_accepted company_ok c company_selectors) as [t|] eqn:F.
      + now apply first_accepted_ok, company_ok_nonempty in F.
      + discriminate.
    - eexists. split; [reflexivity|].
      destruct (first_accepted location_ok c location_selectors) as [t|] eqn:F.
      + now apply first_accepted_ok, location_ok_nonempty in F.
      + discriminate.
    - now eexists. }
  split; [|split; [|split; [|split]]].
  - intros Hmax. unfold extract_job_listings.
    destruct (find_cards page job_card_selectors) as [[|c cards]|];
      try (simpl; lia).
    rewrite extract_from_length, slice_to_nonneg by exact Hmax.
    pose proof (firstn_le_length (Z.to_nat max_jobs) (c :: cards)). lia.
  - unfold extract_job_listings.
    destruct (find_cards page job_card_selectors) as [[|c cards]|];
      try constructor.
    generalize (slice_to (c :: cards) max_jobs). generalize 0.
    intros n l. revert n. induction l as [|x l IH]; intros n; simpl;
      constructor; [apply Hkeys | apply IH].
  - intros i j. unfold extract_job_listings.
    destruct (find_cards page job_card_selectors) as [[|c cards]|] eqn:F;
      try (destruct i; discriminate).
    rewrite extract_from_nth. simpl plus.
    destruct (nth_error (slice_to (c :: cards) max_jobs) i)
      as [c'|] eqn:N; [|discriminate].
    intros [= <-]. exists (c :: cards), c'.
    split; [reflexivity|]. split; [|reflexivity].
    unfold slice_to in N.
    destruct (0 <=? max_jobs)%Z; now apply nth_error_firstn_some in N.
  - intros now c.
    rewrite extract_card_title, extract_card_company, extract_card_location.
    repeat split.
  - split; reflexivity.
Qed.

(** C10 on a page of three cards with the default bound of 50. *)
Lemma C10_listing_records_witness :
  (Z.of_nat
     (List.length
        (extract_job_listings
           (page_of [company_only_card "Acme Corp"; bare_card; bare_card])
           50 (fun _ => "2024-01-01 00:00:00"))) <= 50)%Z.
Proof.
  apply (proj1 (C10_listing_records
                  (page_of [company_only_card "Acme Corp"; bare_card;
                            bare_card])
                  50 (fun _ => "2024-01-01 00:00:00"))).
  lia.
Defined.

End ReporterClaims.

(* ================================================================= *)
(** ** Further properties of the code *)

Section ScraperProperties.
Import JobPageScraper Scenarios PyStrFacts StripFacts JobPageScraperFacts
       ScraperScanFacts RunFacts.

(** X1.  The markup resolver returns the stripped markup of the first
    selector, in list order, whose located element has markup that is not
    blank; every selector before it locates nothing, raises, or has
    absent or blank markup.  It never returns an empty text, and it
    returns none exactly when every selector is such a non-match. *)
Theorem X1_html_resolver_first_non_blank
  (table : selector_table) (doc : document) (selector_key : string) :
  let selectors := selectors_get table selector_key in
  match _get_element_html_with_fallbacks table doc selector_key with
  | Some h =>
      h <> "" /\
      exists pre s post,
        selectors = (pre ++ s :: post)%list /\
        Forall (html_non_match doc) pre /\ yields_html doc s h
  | None => Forall (html_non_match doc) selectors
  end.
Proof.
  unfold _get_element_html_with_fallbacks. cbv zeta.
  apply html_with_fallbacks_spec.
Qed.

(** X2.  The multi-element resolver returns the non-blank stripped texts
    of the elements found by one selector only: the first, in list order,
    that gives at least one such text.  Selectors before it raise, find
    nothing, or find only blank texts, and nothing of theirs is merged
    in.  Every text returned is non-empty and has no whitespace around
    it; the result is empty exactly when no selector gives a text. *)
Theorem X2_multiple_texts_from_one_selector
  (table : selector_table) (doc : document) (selector_key : string) :
  let selectors := selectors_get table selector_key in
  let found := _get_multiple_elements_text table doc selector_key in
  Forall clean found /\
  ((found = [] /\ Forall (yields_no_text doc) selectors) \/
   (found <> [] /\
    exists pre s post,
      selectors = (pre ++ s :: post)%list /\
      Forall (yields_no_text doc) pre /\ texts_of doc s found)).
Proof.
  unfold _get_multiple_elements_text. cbv zeta. split.
  - apply multiple_texts_clean.
  - apply multiple_texts_spec.
Qed.



(** X4.  Whatever the page, a job type reported by
    [_extract_additional_info] contains, lower-cased, one of "full-time",
    "part-time", "contract", "internship", and a seniority level
    contains one of "entry level", "associate", "mid-senior", "director",
    "executive". *)
Theorem X4_additional_info_holds_its_keyword (doc : document) :
  match info_job_type (_extract_additional_info doc) with
  | Some t => any_in job_type_keywords (lower t) = true
  | None => True
  end /\
  match info_seniority_level (_extract_additional_info doc) with
  | Some t => any_in seniority_keywords (lower t) = true
  | None => True
  end.
Proof.
  unfold _extract_additional_info. cbn [info_job_type info_seniority_level].
  split.
  - destruct (job_type_scan doc job_type_selectors) as [t|] eqn:J;
      [|exact I].
    now apply job_type_scan_word in J.
  - apply (seniority_scan_word doc job_type_selectors None). exact I.
Qed.

(** X5.  When the first insight selector finds elements whose texts can
    all be read, the job type is the text of the first element that
    names a job type, while the seniority level is the text of the last
    element that names a seniority level (the scan does not stop at the
    first one). *)
Theorem X5_job_type_first_seniority_last
  (doc : document) (elements : list element) (raws : list string) :
  find_elements doc ".job-details-jobs-unified-top-card__job-insight span"
    = Ok elements ->
  map text elements = map Ok raws ->
  (matching_texts job_type_keywords raws = [] \/
   info_job_type (_extract_additional_info doc)
     = hd_error (matching_texts job_type_keywords raws)) /\
  (matching_texts seniority_keywords raws = [] \/
   info_seniority_level (_extract_additional_info doc)
     = last (map Some (matching_texts seniority_keywords raws)) None).
Proof.
  intros FE M. unfold _extract_additional_info, job_type_selectors.
  cbn [info_job_type info_seniority_level job_type_scan seniority_scan].
  rewrite FE, (job_type_in_first _ _ M), (seniority_in_last _ _ None M).
  split.
  - destruct (matching_texts job_type_keywords raws) as [|t ts];
      [now left | now right].
  - destruct (matching_texts seniority_keywords raws) as [|t ts];
      [now left | right].
    cbn [map]. rewrite last_cons_default.
    assert (exists level, last (map Some ts) (Some t) = Some level) as [l ->].
    { clear. revert t. induction ts as [|u ts IH]; intros t.
      - now exists t.
      - cbn [map]. rewrite last_cons_default. apply IH. }
    reflexivity.
Qed.

Lemma X5_job_type_first_seniority_last_witness :
  info_job_type (_extract_additional_info insight_page)
    = Some "Full-time - Associate" /\
  info_seniority_level (_extract_additional_info insight_page)
    = Some "Mid-Senior level".
Proof.
  pose proof (X5_job_type_first_seniority_last insight_page
                (map text_element insight_raws) insight_raws
                eq_refl eq_refl) as [[H1 | H1] [H2 | H2]];
    try (vm_compute in H1; discriminate H1);
    try (vm_compute in H2; discriminate H2).
  split; [rewrite H1 | rewrite H2]; vm_compute; reflexivity.
Defined.



(** X7.  The title part of the name of the file written by
    [save_data_to_json] holds only letters, digits, spaces, hyphens and
    underscores (so no path separator and no dot), does not end in
    whitespace, and cleaning it again changes nothing.  No file is named
    when there is no record or its title is empty. *)
Theorem X7_file_name_title_is_safe
  (title stamp : string) (data : option job_data) :
  all_chars title_char (safe_title title) = true /\
  char_in "/" (safe_title title) = false /\
  char_in "\" (safe_title title) = false /\
  char_in "." (safe_title title) = false /\
  rstrip (safe_title title) = safe_title title /\
  safe_title (safe_title title) = safe_title title /\
  match save_data_to_json data stamp with
  | Some name =>
      exists d,
        data = Some d /\ job_title d <> "" /\
        name = "job_" ++ safe_title (job_title d) ++ "_" ++ stamp ++ ".json"
  | None => data = None \/ exists d, data = Some d /\ job_title d = ""
  end.
Proof.
  assert (all_chars title_char (safe_title title) = true) as A.
  { unfold safe_title. apply all_chars_rstrip, all_chars_filter. }
  split; [exact A|].
  split; [now apply (all_chars_excludes title_char)|].
  split; [now apply (all_chars_excludes title_char)|].
  split; [now apply (all_chars_excludes title_char)|].
  split; [apply rstrip_idem|]. split.
  - unfold safe_title at 1.
    change (fun c => is_alnum c || char_in c " -_") with title_char.
    rewrite (filter_chars_fixed _ _ A). apply rstrip_idem.
  - unfold save_data_to_json. destruct data as [d|]; [|now left].
    destruct (String.eqb_spec (job_title d) "") as [E|E].
    + right. now exists d.
    + now exists d.
Qed.

(** X8.  Every record returned by [run] passes the guard of
    [save_data_to_json]: a file is named for it, "job_", the cleaned
    title, "_", the time stamp and ".json". *)
Theorem X8_every_record_is_saved
  (s : session) (job_url now stamp : string) (record : job_data) :
  run s job_url now = Ok (Some record) ->
  save_data_to_json (Some record) stamp =
  Some ("job_" ++ safe_title (job_title record) ++ "_" ++ stamp ++ ".json").
Proof.
  intros R. unfold save_data_to_json.
  assert (job_title record <> "") as Hne.
  { apply run_returns in R. unfold extract_job_details in R.
    destruct (_get_element_text_with_fallbacks _ (page s) "title") as [t|];
      [|discriminate].
    destruct (String.eqb_spec t "") as [|Hne]; [discriminate|].
    now injection R as ->. }
  apply String.eqb_neq in Hne. now rewrite Hne.
Qed.

Lemma X8_every_record_is_saved_witness :
  exists record,
    run (session_on insight_page) insight_url "2024-01-01 00:00:00"
      = Ok (Some record) /\
    save_data_to_json (Some record) "20240101_000000"
      = Some "job_ML Engineer_20240101_000000.json".
Proof.
  eexists. split; [vm_compute; reflexivity|].
  etransitivity.
  - apply (X8_every_record_is_saved
             (session_on insight_page) insight_url "2024-01-01 00:00:00"
             "20240101_000000").
    vm_compute. reflexivity.
  - vm_compute. reflexivity.
Defined.

End ScraperProperties.

Section ReporterProperties.
Import JobReporter Scenarios PyStrFacts StripFacts CounterFacts ListingFacts
       NormalizeFacts ListingScanFacts AggregateFacts SnippetFacts.

(** X9.  The location of a record is the first candidate, in selector
    order, that is not empty and, lower-cased, contains none of "ago",
    "hour", "day", "week", "month", "year", "posted", "within"; every
    candidate before it fails one of these checks.  When no candidate
    passes, the location is "Location not found".  "3 days ago" fails
    the checks and "Bengaluru, India" passes them. *)
Theorem X9_location_first_valid_candidate (now : string) (c : card) :
  ((exists pre s post t,
      location_selectors = (pre ++ s :: post)%list /\
      Forall (location_rejected c) pre /\
      candidate c s = Some t /\ location_valid t /\
      location (extract_card now c) = Some t)
   \/
   (Forall (location_rejected c) location_selectors /\
    location (extract_card now c) = Some "Location not found")) /\
  ~ location_valid "3 days ago" /\
  location_valid "Bengaluru, India".
Proof.
  split; [|split].
  - rewrite extract_card_location.
    pose proof (first_accepted_spec location_ok location_valid c
                  location_selectors location_ok_valid) as H.
    destruct (first_accepted location_ok c location_selectors) as [t|].
    + left. destruct H as [pre [s [post [E [F [C V]]]]]].
      exists pre, s, post, t.
      split; [exact E|]. split; [exact F|]. split; [exact C|].
      split; [exact V | reflexivity].
    + right. split; [exact H | reflexivity].
  - rewrite <- location_ok_valid. discriminate.
  - apply location_ok_valid. reflexivity.
Qed.

(** X10.  The title of a record is the normalised text of the first
    title selector whose element has a text that is not blank; selectors
    before it find nothing, cannot be read, or are blank.  When no
    selector gives a title, the title is "Title not found" and the record
    carries no job link: a link is looked for only next to a title. *)
Theorem X10_title_first_non_blank_and_link (now : string) (c : card) :
  let blank s := candidate c s = None \/ candidate c s = Some "" in
  (exists pre s post t,
     title_selectors = (pre ++ s :: post)%list /\
     Forall blank pre /\ candidate c s = Some t /\ t <> "" /\
     title (extract_card now c) = Some t)
  \/
  (Forall blank title_selectors /\
   title (extract_card now c) = Some "Title not found" /\
   job_link (extract_card now c) = None).
Proof.
  cbv zeta. rewrite extract_card_title, extract_card_job_link.
  pose proof (title_scan_spec c title_selectors) as H.
  destruct (title_scan c title_selectors) as [[t link]|].
  - left. destruct H as [Hne [pre [s [post [E [F C]]]]]].
    exists pre, s, post, t.
    split; [exact E|]. split; [exact F|]. split; [exact C|].
    split; [exact Hne | reflexivity].
  - right. split; [exact H|]. split; reflexivity.
Qed.

(** X11.  Normalising a text twice is normalising it once; a normalised
    text has no whitespace around it, its only whitespace characters are
    single plain spaces between words, and it has the words of the
    original.  Every candidate text the listing extractor looks at is
    normalised. *)
Theorem X11_normalize_is_a_normal_form
  (raw selector : string) (c : card) :
  normalize (normalize raw) = normalize raw /\
  strip (normalize raw) = normalize raw /\
  all_chars plain_space_or_ink (normalize raw) = true /\
  split (normalize raw) = split (strip raw) /\
  match candidate c selector with
  | Some t => normalize t = t
  | None => True
  end.
Proof.
  assert (forall s, normalize (normalize s) = normalize s) as Idem.
  { intros s. unfold normalize.
    rewrite (strip_join _ (split_words (strip s))).
    now rewrite (split_join _ (split_words (strip s))). }
  split; [apply Idem|]. unfold normalize at 1 2 3 4 5.
  split; [apply strip_join, split_words|].
  split; [apply join_plain_spaces, split_words|].
  split; [apply split_join, split_words|].
  unfold candidate. destruct (card_find c selector) as [e|]; [|exact I].
  destruct (text e) as [t|]; [|exact I]. apply Idem.
Qed.

(** X12.  The listing extractor takes its cards from the first card
    selector that delivers a non-empty list; selectors before it time out
    or deliver nothing.  If none delivers, or a wait fails otherwise
    before one does, the result is empty.  From the cards found it makes
    one record per card, in order: the first [max_jobs] of them when
    [max_jobs] is not negative, and all but the last [-max_jobs] when it
    is negative. *)
Theorem X12_one_record_per_card_of_first_selector
  (page : listing_page) (max_jobs : Z) (clock : nat -> string) :
  let jobs := extract_job_listings page max_jobs clock in
  (Forall (no_cards page) job_card_selectors /\ jobs = [])
  \/
  (exists pre s post,
     job_card_selectors = (pre ++ s :: post)%list /\
     Forall (no_cards page) pre /\ wait_all page s = Failed /\ jobs = [])
  \/
  (exists pre s post cards,
     job_card_selectors = (pre ++ s :: post)%list /\
     Forall (no_cards page) pre /\
     wait_all page s = Located cards /\ cards <> [] /\
     List.length jobs =
       (if (0 <=? max_jobs)%Z
        then Nat.min (List.length cards) (Z.to_nat max_jobs)
        else List.length cards - Z.to_nat (- max_jobs)) /\
     forall i j, nth_error jobs i = Some j ->
                 exists card, nth_error cards i = Some card /\
                              j = extract_card (clock i) card).
Proof.
  cbv zeta. unfold extract_job_listings.
  pose proof (find_cards_spec page job_card_selectors) as H.
  destruct (find_cards page job_card_selectors) as [[|f o]|].
  - left. now split.
  - right. right. destruct H as [pre [s [post [E [F W]]]]].
    exists pre, s, post, (f :: o).
    split; [exact E|]. split; [exact F|]. split; [exact W|].
    split; [discriminate|]. split.
    + rewrite extract_from_length. unfold slice_to.
      destruct (0 <=? max_jobs)%Z; rewrite length_firstn; lia.
    + intros i j. rewrite extract_from_nth. cbn [plus].
      destruct (nth_error (slice_to (f :: o) max_jobs) i) as [card|] eqn:N;
        [|discriminate].
      intros [= <-]. exists card. split; [|reflexivity].
      unfold slice_to in N.
      destruct (0 <=? max_jobs)%Z; now apply nth_error_firstn_some in N.
  - right. left. destruct H as [pre [s [post [E [F W]]]]].
    exists pre, s, post. now repeat split.
Qed.

(** X13.  The description of a record is taken from the first
    description selector whose element can be found and read: it is the
    first 200 characters of that element's stripped text (the whole text
    when it is shorter) followed by "...", so at most 203 characters;
    selectors before it find nothing or cannot be read, and the record
    has no description exactly when none can.  The posted time is,
    likewise, the stripped text of the first time element that can be
    found and read, empty or not. *)
Theorem X13_snippet_is_bounded (now : string) (c : card) :
  match description (extract_card now c) with
  | Some d =>
      exists pre s post raw,
        desc_selectors = (pre ++ s :: post)%list /\
        Forall (fun s' => forall raw', ~ readable c s' raw') pre /\
        readable c s raw /\
        d = substring 0 200 (strip raw) ++ "..." /\
        (exists rest, strip raw = substring 0 200 (strip raw) ++ rest) /\
        (String.length (strip raw) <= 200 -> d = strip raw ++ "...") /\
        (200 <= String.length (strip raw) -> String.length d = 203) /\
        String.length d <= 203
  | None => Forall (fun s' => forall raw', ~ readable c s' raw') desc_selectors
  end /\
  match posted_time (extract_card now c) with
  | Some t =>
      exists pre s post raw,
        time_selectors = (pre ++ s :: post)%list /\
        Forall (fun s' => forall raw', ~ readable c s' raw') pre /\
        readable c s raw /\ t = strip raw
  | None => Forall (fun s' => forall raw', ~ readable c s' raw') time_selectors
  end.
Proof.
  assert (forall l,
            Forall (fun s' => candidate c s' = None) l ->
            Forall (fun s' => forall raw', ~ readable c s' raw') l) as Un.
  { intros l. apply Forall_impl. intros s'. apply candidate_none. }
  split.
  - change (description (extract_card now c)) with (desc_scan c desc_selectors).
    pose proof (desc_scan_spec c desc_selectors) as D.
    destruct (desc_scan c desc_selectors) as [d|]; [|now apply Un].
    destruct D as [pre [s [post [raw [E [F [R ->]]]]]]].
    exists pre, s, post, raw.
    split; [exact E|]. split; [now apply Un|]. split; [exact R|].
    split; [reflexivity|]. split; [apply substring_prefix|].
    split; [intros L; now rewrite substring_all|].
    split.
    + intros L. rewrite append_length, substring_full_length by exact L.
      reflexivity.
    + rewrite append_length.
      pose proof (substring_length_le 200 (strip raw)). simpl. lia.
  - change (posted_time (extract_card now c)) with (time_scan c time_selectors).
    pose proof (time_scan_spec c time_selectors) as T.
    destruct (time_scan c time_selectors) as [t|]; [|now apply Un].
    destruct T as [pre [s [post [raw [E [F [R ->]]]]]]].
    exists pre, s, post, raw.
    split; [exact E|]. split; [now apply Un|]. now split.
Qed.



(** X15.  Every record is accounted for once in each table: the counts
    of the full company table add up to the number of records whose
    company is not "Company not found", likewise for locations with
    "Location not found" and for posting times with the empty text; so
    the numbers of unique companies and of unique locations never exceed
    the number of records. *)
Theorem X15_tables_account_for_every_record (jobs : list job) :
  list_sum (map snd (company_counter jobs))
    + occurrences "Company not found" (field_values company jobs)
    = List.length jobs /\
  list_sum (map snd (location_counter jobs))
    + occurrences "Location not found" (field_values location jobs)
    = List.length jobs /\
  list_sum (map snd (time_counter jobs))
    + occurrences "" (field_values posted_time jobs)
    = List.length jobs /\
  List.length (company_counter jobs) <= List.length jobs /\
  List.length (location_counter jobs) <= List.length jobs.
Proof.
  assert (forall (field : job -> option string) (x : string),
            List.length
              (filter (fun k => negb (String.eqb k x)) (field_values field jobs))
            + occurrences x (field_values field jobs) = List.length jobs)
    as Acc.
  { intros field x. rewrite filter_split_length. unfold field_values.
    apply length_map. }
  assert (forall (field : job -> option string) (x : string),
            List.length
              (uniq (filter (fun k => negb (String.eqb k x))
                            (field_values field jobs)))
            <= List.length jobs) as Uq.
  { intros field x. etransitivity; [apply uniq_length_le|].
    specialize (Acc field x). lia. }
  split; [|split; [|split; [|split]]].
  - rewrite company_counter_keys, counter_sum. apply (Acc company).
  - rewrite location_counter_keys, counter_sum. apply (Acc location).
  - rewrite time_counter_keys, counter_sum. apply (Acc posted_time).
  - rewrite company_counter_keys, counter_length. apply (Uq company).
  - rewrite location_counter_keys, counter_length. apply (Uq location).
Qed.

(** X16.  When the records name at most 10 distinct companies, the
    companies view leaves none out: it holds exactly the entries of the
    full table, and its counts add up to the number of records whose
    company is not "Company not found". *)
Theorem X16_view_is_complete_up_to_10 (jobs : list job) :
  List.length (company_counter jobs) <= 10 ->
  Permutation (most_common 10 (company_counter jobs)) (company_counter jobs) /\
  list_sum (map snd (most_common 10 (company_counter jobs)))
    + occurrences "Company not found" (field_values company jobs)
    = List.length jobs.
Proof.
  intros H. pose proof (most_common_all 10 _ H) as P. split; [exact P|].
  rewrite (list_sum_perm _ _ (Permutation_map snd P)).
  rewrite company_counter_keys, counter_sum.
  unfold company_keys, field_values.
  rewrite filter_split_length. apply length_map.
Qed.

Lemma X16_view_is_complete_up_to_10_witness :
  Permutation (most_common 10 (company_counter scenario_jobs))
              (company_counter scenario_jobs).
Proof.
  apply (X16_view_is_complete_up_to_10 scenario_jobs).
  vm_compute. lia.
Defined.

(** X17.  The name of a report file has no space in it, whatever the
    search term and the location, as long as the time stamp and the
    format have none: spaces of the term and of the location become
    underscores. *)
Theorem X17_report_file_name_has_no_space
  (job_title location output_format timestamp : string) :
  all_chars not_space timestamp = true ->
  all_chars not_space output_format = true ->
  all_chars not_space
    (report_filename job_title location output_format timestamp) = true.
Proof.
  intros Ht Hf.
  assert (forall s, all_chars not_space (replace_char " " "_" s) = true) as R.
  { induction s as [|c s IH]; [reflexivity|]. cbn [replace_char all_chars].
    rewrite IH, andb_true_r.
    destruct (Ascii.eqb_spec c " ") as [->|Hc]; [reflexivity|].
    unfold not_space. apply negb_true_iff. now apply Ascii.eqb_neq. }
  unfold report_filename. cbv zeta.
  rewrite !all_chars_app, R, Ht, Hf.
  destruct (String.eqb location ""); [reflexivity|].
  rewrite all_chars_app, R. reflexivity.
Qed.

Lemma X17_report_file_name_has_no_space_witness :
  all_chars not_space
    (report_filename "ML Engineer" "New York" "html" "20240101_000000")
  = true.
Proof.
  apply (X17_report_file_name_has_no_space
           "ML Engineer" "New York" "html" "20240101_000000");
    reflexivity.
Defined.

End ReporterProperties.
